(** * BrassVersion: the revision file of the brass backend

    A shallow embedding of [xapian-core/backends/brass/brass_version.cc]:
    the on-disk codec of a revision file, the directory scan that finds the
    newest revision, and the commit sequence of [BrassVersion::write].

    Conventions.
    - A [std::string] or [char] buffer holding raw bytes is a [list ascii];
      a path, a directory entry name or a message is a [string].
    - Unsigned integers are [Z]; [static_cast<unsigned char>(c)] is
      [byte_val c] and [char(v)] is [to_char v].
    - A member function is a computation in the monad [M]: it reads the
      outcomes the operating system gives to its calls, threads the object
      and the file system, and either returns or throws.  The state that a
      throwing computation leaves behind is kept, as a C++ exception keeps
      the assignments made before it. *)

From Stdlib Require Import ZArith Lia Ascii String DecimalString.
From stdpp Require Import base numbers option list strings gmap fin_maps.

Set Default Proof Using "Type".

(** ** Bytes and characters *)

Definition byte_val (c : ascii) : Z := Z.of_N (N_of_ascii c).
Definition to_char (v : Z) : ascii := ascii_of_N (Z.to_N (v `mod` 256)).

(** [name[i]] for a NUL-terminated [const char *]: the terminator is read
    at the end of the string. *)
Definition c_at (s : string) (i : nat) : ascii :=
  match String.get i s with
  | Some c => c
  | None => Ascii.zero
  end.

Definition is_nul (c : ascii) : bool := Ascii.eqb c Ascii.zero.

(** [memcmp(a + i, b + j, n)]: bytes compared as [unsigned char]. *)
Fixpoint memcmp (a : string) (i : nat) (b : string) (j : nat) (n : nat) : comparison :=
  match n with
  | O => Eq
  | S n' =>
      match (byte_val (c_at a i) ?= byte_val (c_at b j))%Z with
      | Eq => memcmp a (S i) b (S j) n'
      | c => c
      end
  end.

(** [memcmp(buf, magic, n)] on byte buffers; bytes past the end of a
    buffer are never read by the callers below. *)
Fixpoint memcmp_bytes (a b : list ascii) (n : nat) {struct n} : comparison :=
  match n with
  | O => Eq
  | S n' =>
      match a, b with
      | x :: a', y :: b' =>
          match (byte_val x ?= byte_val y)%Z with
          | Eq => memcmp_bytes a' b' n'
          | c => c
          end
      | [], [] => Eq
      | [], _ :: _ => Lt
      | _ :: _, [] => Gt
      end
  end.

(** ** Constants of the format *)

(** [DATE_TO_VERSION(Y,M,D)] and the three decoding macros. *)
Definition DATE_TO_VERSION (Y M D : Z) : Z := ((((Y - 2010) * 12 + (M - 1)) * 31) + D - 1)%Z.
Definition VERSION_TO_YEAR (V : Z) : Z := (V / 31 / 12 + 2010)%Z.
Definition VERSION_TO_MONTH (V : Z) : Z := ((V / 31) `mod` 12 + 1)%Z.
Definition VERSION_TO_DAY (V : Z) : Z := (V `mod` 31 + 1)%Z.

Definition BRASS_FORMAT_VERSION : Z := DATE_TO_VERSION 2010 2 23.

(** ["\x0f\x0dXapian Brass"] *)
Definition BRASS_VERSION_MAGIC : list ascii :=
  ascii_of_nat 15 :: ascii_of_nat 13 :: list_ascii_of_string "Xapian Brass".
Definition BRASS_VERSION_MAGIC_LEN : nat := 14.

(** ** What the surrounding storage layer supplies

    [Brass::MAX_], the type [brass_block_t] and the two functions of
    [pack.h] are declared outside this file; the embedding takes them as
    parameters.  [unpack_uint p old] stands for
    [unpack_uint(&p, end, &result)] called with the bytes from [p] to [end]
    and [old] in [result]: it gives the returned flag, the bytes from the
    new [p] to [end], and the new [result]. *)
Class BrassEnv := {
  MAX_ : nat;
  block_bits : N;
  pack_uint : Z → list ascii;
  unpack_uint : list ascii → Z → bool * list ascii * Z;
}.

(** ** Errors *)

(** The exceptions of [xapian/error.h] thrown here, with the message and,
    where the constructor takes one, the [errno] value (0 when omitted). *)
Inductive Error :=
  | DatabaseError (msg : string) (errno_ : Z)
  | DatabaseOpeningError (msg : string) (errno_ : Z)
  | DatabaseCorruptError (msg : string)
  | DatabaseVersionError (msg : string).

Definition is_opening_error (e : Error) : bool :=
  match e with DatabaseOpeningError _ _ => true | _ => false end.
Definition is_generic_error (e : Error) : bool :=
  match e with DatabaseError _ _ => true | _ => false end.

(** ** The object, the file system and the monad *)

(** The data members of [BrassVersion]. *)
Record BrassVersion := mkBrassVersion {
  rev : Z;
  root : list Z;
  new_root : list Z;
  uuid : list ascii;
}.

(** A file descriptor is identified with the path it was opened on: at
    most one descriptor is open at any time. *)
Inductive syscall :=
  | SysOpenW (path : string)
  | SysWrite (path : string) (data : list ascii)
  | SysSync (path : string)
  | SysClose (path : string)
  | SysRename (from to : string)
  | SysUnlink (path : string)
  | SysOpenR (path : string)
  | SysRead (path : string)
  | SysOpendir (path : string)
  | SysReaddir
  | SysClosedir.

Record World := mkWorld {
  files : gmap string (list ascii);
  errno : Z;
  trace : list syscall;
}.

(** What the operating system answers during one call of a member
    function.  A fault [Some e] makes the call fail and sets [errno] to
    [e]. *)
Record Outcomes := mkOutcomes {
  open_w_fault : option Z;
  write_fault : option (nat * Error);
  sync_fault : option Z;
  close_fault : option Z;
  rename_fault : option Z;
  unlink_fault : option Z;
  open_r_fault : option Z;
  opendir_result : Z + list string;
  readdir_fault : option Z;
  closedir_fault : option Z;
  uuid_generated : list ascii;
}.

Record State := mkState {
  obj : BrassVersion;
  world : World;
}.

Inductive result (A : Type) :=
  | Ok (a : A)
  | Throw (e : Error).
Arguments Ok {A} a.
Arguments Throw {A} e.

Definition M (A : Type) : Type := Outcomes → State → result A * State.

Definition ret {A} (a : A) : M A := λ _ s, (Ok a, s).

Definition bind {A B} (m : M A) (k : A → M B) : M B :=
  λ oc s,
    match m oc s with
    | (Ok a, s') => k a oc s'
    | (Throw e, s') => (Throw e, s')
    end.

Definition throw {A} (e : Error) : M A := λ _ s, (Throw e, s).

(** [try { m } catch (...) { h }] where the handler gets the exception in
    flight. *)
Definition try_catch {A} (m : M A) (h : Error → M A) : M A :=
  λ oc s,
    match m oc s with
    | (Ok a, s') => (Ok a, s')
    | (Throw e, s') => h e oc s'
    end.

(** A destructor that runs when the scope is left, normally or by an
    exception. *)
Definition at_scope_exit {A} (m : M A) (d : M unit) : M A :=
  λ oc s,
    match m oc s with
    | (r, s') => (r, snd (d oc s'))
    end.

Notation "x <- m ;; k" := (bind m (λ x, k))
  (at level 100, m at next level, right associativity).
Notation "m ;;; k" := (bind m (λ _, k))
  (at level 100, right associativity).

Definition outcomes : M Outcomes := λ oc s, (Ok oc, s).
Definition this : M BrassVersion := λ _ s, (Ok (obj s), s).
Definition get_world : M World := λ _ s, (Ok (world s), s).
Definition put_obj (o : BrassVersion) : M unit := λ _ s, (Ok (), mkState o (world s)).
Definition put_world (w : World) : M unit := λ _ s, (Ok (), mkState (obj s) w).

Definition get_errno : M Z := w <- get_world ;; ret (errno w).
Definition set_errno (e : Z) : M unit :=
  w <- get_world ;; put_world (mkWorld (files w) e (trace w)).
Definition log (c : syscall) : M unit :=
  w <- get_world ;; put_world (mkWorld (files w) (errno w) (trace w ++ [c])).
Definition set_files (f : gmap string (list ascii)) : M unit :=
  w <- get_world ;; put_world (mkWorld f (errno w) (trace w)).
Definition get_files : M (gmap string (list ascii)) :=
  w <- get_world ;; ret (files w).

Definition set_rev (r : Z) : M unit :=
  o <- this ;; put_obj (mkBrassVersion r (root o) (new_root o) (uuid o)).
Definition set_root (r : list Z) : M unit :=
  o <- this ;; put_obj (mkBrassVersion (rev o) r (new_root o) (uuid o)).
Definition set_new_root (r : list Z) : M unit :=
  o <- this ;; put_obj (mkBrassVersion (rev o) (root o) r (uuid o)).
Definition set_uuid (u : list ascii) : M unit :=
  o <- this ;; put_obj (mkBrassVersion (rev o) (root o) (new_root o) u).

Definition run {A} (m : M A) (oc : Outcomes) (s : State) : result A * State := m oc s.

(** ** System calls and the helpers of [brass_io.h] *)

Definition ENOENT : Z := 2.

(** [open(path, O_CREAT|O_TRUNC|O_WRONLY|O_BINARY, 0666)]: [None] for a
    negative descriptor. *)
Definition sys_open_w (path : string) : M (option string) :=
  log (SysOpenW path) ;;;
  oc <- outcomes ;;
  match open_w_fault oc with
  | Some e => set_errno e ;;; ret None
  | None => f <- get_files ;; set_files (<[path := []]> f) ;;; ret (Some path)
  end.

(** [brass_io_write(fd, data, size)] either writes everything or throws
    after a prefix has reached the file; what it throws is the helper's
    choice and is taken from the outcomes. *)
Definition brass_io_write (fd : string) (data : list ascii) : M unit :=
  log (SysWrite fd data) ;;;
  oc <- outcomes ;;
  f <- get_files ;;
  match write_fault oc with
  | Some (n, exn) => set_files (<[fd := default [] (f !! fd) ++ take n data]> f) ;;; throw exn
  | None => set_files (<[fd := default [] (f !! fd) ++ data]> f)
  end.

(** [brass_io_sync(fd)] *)
Definition brass_io_sync (fd : string) : M bool :=
  log (SysSync fd) ;;;
  oc <- outcomes ;;
  match sync_fault oc with
  | Some e => set_errno e ;;; ret false
  | None => ret true
  end.

(** [close(fd)] *)
Definition sys_close (fd : string) : M Z :=
  log (SysClose fd) ;;;
  oc <- outcomes ;;
  match close_fault oc with
  | Some e => set_errno e ;;; ret (-1)%Z
  | None => ret 0%Z
  end.

(** [rename(from, to)] *)
Definition sys_rename (from to : string) : M Z :=
  log (SysRename from to) ;;;
  oc <- outcomes ;;
  f <- get_files ;;
  match rename_fault oc, f !! from with
  | Some e, _ => set_errno e ;;; ret (-1)%Z
  | None, None => set_errno ENOENT ;;; ret (-1)%Z
  | None, Some c => set_files (<[to := c]> (delete from f)) ;;; ret 0%Z
  end.

(** [unlink(path)] *)
Definition sys_unlink (path : string) : M Z :=
  log (SysUnlink path) ;;;
  oc <- outcomes ;;
  f <- get_files ;;
  match unlink_fault oc, f !! path with
  | Some e, _ => set_errno e ;;; ret (-1)%Z
  | None, None => set_errno ENOENT ;;; ret (-1)%Z
  | None, Some _ => set_files (delete path f) ;;; ret 0%Z
  end.

(** [open(path, O_RDONLY|O_BINARY)] *)
Definition sys_open_r (path : string) : M (option string) :=
  log (SysOpenR path) ;;;
  oc <- outcomes ;;
  f <- get_files ;;
  match open_r_fault oc, f !! path with
  | Some e, _ => set_errno e ;;; ret None
  | None, None => set_errno ENOENT ;;; ret None
  | None, Some _ => ret (Some path)
  end.

(** Modelled from the spec: [brass_io_read(fd, buf, n, min)] of
    [brass_io.h], whose definition is not among the sources.  It reads a
    prefix of at most [n] bytes of the file and needs [min] of them:
    "read up to a bounded prefix (implementation may cap at e.g. 256
    bytes, requiring at least the fixed 32-byte header to be present)",
    and "a file shorter than the fixed header (32 bytes) fails with
    CorruptError".  The result is the bytes between [buf] and the
    returned end. *)
Definition brass_io_read (fd : string) (n min : nat) : M (list ascii) :=
  log (SysRead fd) ;;;
  f <- get_files ;;
  let got := take n (default [] (f !! fd)) in
  if length got <? min then throw (DatabaseCorruptError "Couldn't read enough (EOF)")
  else ret got.

(** [opendir(path)]: the stream is the list of the names still to be
    returned by [readdir]. *)
Definition sys_opendir (path : string) : M (option (list string)) :=
  log (SysOpendir path) ;;;
  oc <- outcomes ;;
  match opendir_result oc with
  | inl e => set_errno e ;;; ret None
  | inr names => ret (Some names)
  end.

(** [readdir(dir)] on an exhausted stream: it returns NULL, and sets
    [errno] only when the listing failed. *)
Definition sys_readdir_null : M unit :=
  oc <- outcomes ;;
  match readdir_fault oc with
  | Some e => set_errno e
  | None => ret ()
  end.

(** [closedir(dir)] *)
Definition sys_closedir : M unit :=
  log SysClosedir ;;;
  oc <- outcomes ;;
  match closedir_fault oc with
  | Some e => set_errno e
  | None => ret ()
  end.

(** ** Formatting *)

(** [str(v)] of an unsigned value: its decimal digits. *)
Definition str (v : Z) : string := NilZero.string_of_int (Z.to_int v).

Definition hex_digit (d : Z) : ascii :=
  if (d <? 10)%Z then to_char (48 + d) else to_char (87 + d).

(** [sprintf(buf, "%08x", v)] for a 32-bit [unsigned]: eight lower-case
    hexadecimal digits, most significant first. *)
Definition sprintf_08x (v : Z) : string :=
  let v := (v `mod` 2 ^ 32)%Z in
  string_of_list_ascii
    (map (λ sh, hex_digit (Z.land (Z.shiftr v sh) 15)) [28; 24; 20; 16; 12; 8; 4; 0]%Z).

(** [sprintf("%0Nd", v)] for a non-negative [v]: the decimal digits,
    padded with zeros on the left up to [width] characters. *)
Definition sprintf_0d (width : nat) (v : Z) : string :=
  let d := str v in
  string_of_list_ascii (replicate (width - String.length d) "0"%char) +:+ d.

(** The value of a hexadecimal digit, of either case. *)
Definition xdigit_val (c : ascii) : option Z :=
  let v := byte_val c in
  if (48 <=? v)%Z && (v <=? 57)%Z then Some (v - 48)%Z
  else if (97 <=? v)%Z && (v <=? 102)%Z then Some (v - 87)%Z
  else if (65 <=? v)%Z && (v <=? 70)%Z then Some (v - 55)%Z
  else None.

(** [strtoul(s, NULL, 16)] on a string that starts with its digits (no
    white space, sign or [0x] prefix, which the caller never passes): the
    value of the longest prefix of hexadecimal digits.  [acc] is the value
    read so far. *)
Fixpoint strtoul16_from (acc : Z) (s : string) : Z :=
  match s with
  | EmptyString => acc
  | String c s' =>
      match xdigit_val c with
      | Some d => strtoul16_from (acc * 16 + d) s'
      | None => acc
      end
  end.
Definition strtoul16 (s : string) : Z := strtoul16_from 0 s.

(** Modelled from the spec: [C_islcxdigit] of [stringutils.h], whose
    definition is not among the sources; the scanner "accepts only names
    of the exact form v followed by 8 lowercase hexadecimal digits". *)
Definition C_islcxdigit (c : ascii) : bool :=
  let v := byte_val c in
  ((48 <=? v)%Z && (v <=? 57)%Z) || ((97 <=? v)%Z && (v <=? 102)%Z).

(** A string of lower-case hexadecimal digits only. *)
Fixpoint all_lcxdigit (s : string) : bool :=
  match s with
  | EmptyString => true
  | String c s' => C_islcxdigit c && all_lcxdigit s'
  end.

(** A string without the terminator inside, as every C string is. *)
Fixpoint nul_free (s : string) : bool :=
  match s with
  | EmptyString => true
  | String c s' => negb (is_nul c) && nul_free s'
  end.

(** ** BrassVersion::write *)

Section Brass.
Context `{BrassEnv}.

(** [static_cast<brass_block_t>(-1)] *)
Definition NO_ROOT : Z := (2 ^ Z.of_N block_bits - 1)%Z.

(** The loop
    [while (table_last > 0 && new_root[table_last - 1] == brass_block_t(-1)) --table_last;]
    started at [table_last]. *)
Fixpoint trim_table_last (table_last : nat) (new_root : list Z) : nat :=
  match table_last with
  | O => O
  | S t => if (new_root !!! t =? NO_ROOT)%Z then trim_table_last t new_root else S t
  end.

(** The string [s] that [write] builds: magic, version, UUID and the
    packed roots of the tables below [table_last]. *)
Definition write_header (uuid : list ascii) : list ascii :=
  BRASS_VERSION_MAGIC
    ++ [to_char (Z.land (Z.shiftr BRASS_FORMAT_VERSION 8) 255)]
    ++ [to_char (Z.land BRASS_FORMAT_VERSION 255)]
    ++ take 16 uuid.

Definition write_buffer (o : BrassVersion) : list ascii :=
  let s := write_header (uuid o) in
  let table_last := trim_table_last MAX_ (new_root o) in
  foldl (λ s table_no, s ++ pack_uint (new_root o !!! table_no)) s (seq 0 table_last).

Definition write (db_dir : string) (new_rev : Z) : M unit :=
  o <- this ;;
  if (new_rev <? rev o)%Z then
    throw (DatabaseError ("New revision " +:+ str new_rev +:+ " < old revision " +:+ str (rev o)) 0)
  else
    let s := write_buffer o in
    let tmpfile := db_dir +:+ "v.tmp" in
    let filename := db_dir +:+ "/v" +:+ substring 0 8 (sprintf_08x new_rev) in
    fd <- sys_open_w tmpfile ;;
    match fd with
    | None =>
        e <- get_errno ;;
        throw (DatabaseOpeningError ("Couldn't write new rev file: " +:+ tmpfile) e)
    | Some fd =>
        try_catch (brass_io_write fd s)
                  (λ exn, sys_close fd ;;; throw exn) ;;;
        synced <- brass_io_sync fd ;;
        if negb synced then
          save_errno <- get_errno ;;
          sys_close fd ;;;
          sys_unlink tmpfile ;;;
          throw (DatabaseOpeningError ("Failed to sync new rev file: " +:+ tmpfile) save_errno)
        else
          closed <- sys_close fd ;;
          if (closed =? -1)%Z then
            save_errno <- get_errno ;;
            sys_unlink tmpfile ;;;
            throw (DatabaseOpeningError ("Failed to close new rev file: " +:+ tmpfile) save_errno)
          else
            renamed <- sys_rename tmpfile filename ;;
            if (renamed <? 0)%Z then
              save_errno <- get_errno ;;
              sys_unlink tmpfile ;;;
              throw (DatabaseOpeningError ("Failed to rename new rev file: " +:+ tmpfile) save_errno)
            else
              set_rev new_rev ;;;
              o' <- this ;;
              set_root (new_root o')
    end.

(** ** BrassVersion::create *)

(** [uuid_generate(uuid)] stores the identifier the generator produces. *)
Definition uuid_generate : M unit :=
  oc <- outcomes ;; set_uuid (uuid_generated oc).

(** The loop [for (table_no = 0; table_no < MAX_; ++table_no) a[table_no] = v;]
    with [n] iterations left. *)
Fixpoint fill_from (table_no n : nat) (v : Z) (a : list Z) : list Z :=
  match n with
  | O => a
  | S n' => fill_from (S table_no) n' v (<[table_no := v]> a)
  end.

Definition create (db_dir : string) : M unit :=
  uuid_generate ;;;
  o <- this ;;
  set_new_root (fill_from 0 MAX_ NO_ROOT (new_root o)) ;;;
  o <- this ;;
  write db_dir (rev o).

(** ** BrassVersion::read *)

Definition byte_at (buf : list ascii) (i : nat) : Z := byte_val (nth i buf Ascii.zero).

(** [sprintf(datebuf, "%04d%02d%02d", VERSION_TO_YEAR(v), VERSION_TO_MONTH(v), VERSION_TO_DAY(v))] *)
Definition version_date (v : Z) : string :=
  sprintf_0d 4 (VERSION_TO_YEAR v) +:+ sprintf_0d 2 (VERSION_TO_MONTH v)
    +:+ sprintf_0d 2 (VERSION_TO_DAY v).

(** The loop over the tables, with [n] iterations left and [p] the bytes
    from [p] to [end]; it returns the final [p]. *)
Fixpoint read_roots (table_no n : nat) (p : list ascii) : M (list ascii) :=
  match n with
  | O => ret p
  | S n' =>
      o <- this ;;
      match p with
      | _ :: _ =>
          let '(ok, p', r) := unpack_uint p (root o !!! table_no) in
          set_root (<[table_no := r]> (root o)) ;;;
          if ok then read_roots (S table_no) n' p'
          else throw (DatabaseCorruptError "Rev file roots")
      | [] =>
          set_root (<[table_no := NO_ROOT]> (root o)) ;;;
          read_roots (S table_no) n' p
      end
  end.

(** The body of [read] once the file is open. *)
Definition read_body (filename fd : string) : M unit :=
  buf <- brass_io_read fd 256 32 ;;
  match memcmp_bytes buf BRASS_VERSION_MAGIC BRASS_VERSION_MAGIC_LEN with
  | Eq =>
      let version := byte_at buf 14 in
      let version := Z.lor (Z.shiftl version 8) (byte_at buf 15) in
      if negb (version =? BRASS_FORMAT_VERSION)%Z then
        throw (DatabaseVersionError
                 (filename +:+ ": Database is format version " +:+ version_date version
                    +:+ " but I only understand " +:+ version_date BRASS_FORMAT_VERSION))
      else
        let p := drop 16 buf in
        set_uuid (take 16 p) ;;;
        let p := drop 16 p in
        p <- read_roots 0 MAX_ p ;;
        match p with
        | _ :: _ => throw (DatabaseCorruptError "Rev file has junk at end")
        | [] => ret ()
        end
  | _ => throw (DatabaseCorruptError "Rev file magic incorrect")
  end.

Definition read (filename : string) : M unit :=
  fd <- sys_open_r filename ;;
  match fd with
  | None =>
      e <- get_errno ;;
      throw (DatabaseOpeningError
               (filename +:+ ": Failed to open brass revision file for reading") e)
  | Some fd =>
      (* [fdcloser close_fd(fd)] closes the descriptor when [read] is left. *)
      at_scope_exit (read_body filename fd) (sys_close fd ;;; ret ())
  end.

(** ** BrassVersion::open_most_recent *)

(** The loop that advances [p] while the character it points to is not
    the terminator, [p != name + 9] and [C_islcxdigit] holds of that
    character; [left] is [name + 9 - p], and the result is the final
    offset of [p] in [name]. *)
Fixpoint skip_lcxdigits (name : string) (p left : nat) : nat :=
  match left with
  | O => p
  | S l =>
      let c := c_at name p in
      if negb (is_nul c) && C_islcxdigit c then skip_lcxdigits name (S p) l else p
  end.

(** The two [continue] tests of the loop body: [true] when the entry
    reaches the comparison with [newest]. *)
Definition is_revision_name (name : string) : bool :=
  if negb (Ascii.eqb (c_at name 0) "v") then false
  else
    let p := skip_lcxdigits name 1 8 in
    if negb (is_nul (c_at name p)) || negb (p =? 9) then false else true.

(** One step of the loop on an entry, giving the new [newest]. *)
Definition scan_entry (newest name : string) : string :=
  if is_revision_name name then
    if String.eqb newest "" || match memcmp newest 0 name 1 8 with Lt => true | _ => false end
    then substring 1 8 name
    else newest
  else newest.

(** The loop [while (true) { errno = 0; entry = readdir(dir); ... }] on
    the stream [dir]. *)
Fixpoint scan_dir (db_dir : string) (dir : list string) (newest : string) : M string :=
  set_errno 0 ;;;
  log SysReaddir ;;;
  match dir with
  | [] =>
      sys_readdir_null ;;;
      sys_closedir ;;;
      e <- get_errno ;;
      if (e =? 0)%Z then ret newest
      else throw (DatabaseError ("Couldn't read from directory: " +:+ db_dir) e)
  | name :: dir' => scan_dir db_dir dir' (scan_entry newest name)
  end.

Definition open_most_recent (db_dir : string) : M unit :=
  dir <- sys_opendir db_dir ;;
  match dir with
  | None =>
      e <- get_errno ;;
      throw (DatabaseOpeningError ("Couldn't open directory: " +:+ db_dir) e)
  | Some dir =>
      newest <- scan_dir db_dir dir "" ;;
      if String.eqb newest "" then
        set_rev 0 ;;;
        o <- this ;;
        set_root (fill_from 0 MAX_ NO_ROOT (root o))
      else
        let v := strtoul16 newest in
        (* [rev = (brass_revision_number_t)v]: revisions are 32-bit, as
           the format ["%08x"] of [write] takes them. *)
        set_rev (v `mod` 2 ^ 32)%Z ;;;
        read (db_dir +:+ "/v" +:+ newest)
  end.

End Brass.

(** ** An instance of the environment

    Six tables, 32-bit block numbers, and a little-endian base-128 coding
    with a continuation bit, in the manner of [pack.h].  The theorems
    below hold for every environment; this one serves to run the
    definitions. *)
Module Varint.

(** [fuel] bounds the number of continuation bytes. *)
Fixpoint pack_fuel (fuel : nat) (value : Z) : list ascii :=
  match fuel with
  | O => [to_char value]
  | S f =>
      if (128 <=? value)%Z
      then to_char (value `mod` 128 + 128) :: pack_fuel f (value / 128)
      else [to_char value]
  end.

Definition pack (value : Z) : list ascii := pack_fuel 4 value.

Fixpoint unpack_go (p : list ascii) : option (Z * list ascii) :=
  match p with
  | [] => None
  | c :: p' =>
      let b := byte_val c in
      if (b <? 128)%Z then Some (b, p')
      else
        match unpack_go p' with
        | Some (v, rest) => Some (v * 128 + (b - 128), rest)%Z
        | None => None
        end
  end.

Definition unpack (p : list ascii) (old : Z) : bool * list ascii * Z :=
  match unpack_go p with
  | Some (v, rest) => if (v <? 2 ^ 32)%Z then (true, rest, v) else (false, [], old)
  | None => (false, [], old)
  end.

Definition env : BrassEnv :=
  {| MAX_ := 6; block_bits := 32; pack_uint := pack; unpack_uint := unpack |}.

End Varint.

(** A newly constructed object for six tables ([rev] is 0, the arrays
    and the UUID hold zeros), an empty file system, and a run in which
    every call succeeds and the generator produces the bytes 1..16. *)
Definition sample_uuid : list ascii := map ascii_of_nat (seq 1 16).
Definition fresh_obj : BrassVersion :=
  mkBrassVersion 0 (replicate 6 0%Z) (replicate 6 0%Z) (replicate 16 Ascii.zero).
Definition empty_world : World := mkWorld ∅ 0 [].
Definition no_faults : Outcomes :=
  mkOutcomes None None None None None None None (inr []) None None sample_uuid.

(** An object of that instance with the root of table 2 staged at 42 and
    the other roots at [NO_ROOT], and one whose current revision is 5. *)
Definition staged_obj : BrassVersion :=
  mkBrassVersion 0 (replicate 6 4294967295%Z)
    [4294967295; 4294967295; 42; 4294967295; 4294967295; 4294967295]%Z sample_uuid.
Definition obj_at_rev_5 : BrassVersion :=
  mkBrassVersion 5 (replicate 6 4294967295%Z) (replicate 6 4294967295%Z) sample_uuid.

(** A file system that holds one file. *)
Definition world_with_file (path : string) (contents : list ascii) : World :=
  mkWorld {[ path := contents ]} 0 [].

(** The listing of the scanner example, and runs in which the data write,
    the listing and the opening of the directory fail. *)
Definition sample_names : list string :=
  ["v00000001"; "v0000000a"; "vXXXXXXXX"; "v1234567"; "v123456789"; "flintlock"].
Definition listing_of (names : list string) : Outcomes :=
  mkOutcomes None None None None None None None (inr names) None None sample_uuid.
Definition write_fails : Outcomes :=
  mkOutcomes None (Some (10, DatabaseError "Error writing to file" 28)) None None None None
    None (inr []) None None sample_uuid.
Definition listing_fails : Outcomes :=
  mkOutcomes None None None None None None None (inr ["v00000001"]) (Some 5%Z) None
    sample_uuid.

(** Revision files: one of a later format, one with a wrong first byte,
    one cut short, and one with a byte after the roots of all six
    tables. *)
Definition later_format_file : list ascii :=
  BRASS_VERSION_MAGIC ++ [to_char 0; to_char 54] ++ sample_uuid.
Definition bad_magic_file : list ascii :=
  to_char 0 :: drop 1 (BRASS_VERSION_MAGIC ++ [to_char 0; to_char 53] ++ sample_uuid).
Definition short_file : list ascii := take 20 later_format_file.
Definition junk_file : list ascii :=
  BRASS_VERSION_MAGIC ++ [to_char 0; to_char 53] ++ sample_uuid
    ++ map to_char [1; 2; 3; 4; 5; 6]%Z ++ [to_char 7].

Definition opendir_fails : Outcomes :=
  mkOutcomes None None None None None None None (inl 13%Z) None None sample_uuid.

(** ** The vocabulary of the statements *)

Section Vocabulary.
Context `{BrassEnv}.

(** The two paths that [write] builds. *)
Definition tmpfile_of (db_dir : string) : string := db_dir +:+ "v.tmp".
Definition filename_of (db_dir : string) (new_rev : Z) : string :=
  db_dir +:+ "/v" +:+ substring 0 8 (sprintf_08x new_rev).

(** The object that a successful [write] leaves. *)
Definition committed (o : BrassVersion) (new_rev : Z) : BrassVersion :=
  mkBrassVersion new_rev (new_root o) (new_root o) (uuid o).

(** No call of [write] fails in this run. *)
Definition no_write_faults (oc : Outcomes) : Prop :=
  open_w_fault oc = None ∧ write_fault oc = None ∧ sync_fault oc = None
  ∧ close_fault oc = None ∧ rename_fault oc = None.

(** Eight lower-case hexadecimal digits. *)
Definition hex8 (d : string) : Prop := String.length d = 8 ∧ all_lcxdigit d = true.

(** What holds of [newest] after the entries [seen]. *)
Definition newest_of (seen : list string) (newest : string) : Prop :=
  (newest = "" ∧ ∀ n, n ∈ seen → is_revision_name n = false)
  ∨ (hex8 newest
     ∧ (∃ n, n ∈ seen ∧ is_revision_name n = true ∧ substring 1 8 n = newest)
     ∧ ∀ n, n ∈ seen → is_revision_name n = true →
         (strtoul16 (substring 1 8 n) ≤ strtoul16 newest)%Z).

(** The value of [errno] that the test after [closedir] sees when the
    stream is exhausted. *)
Definition errno_after_listing (oc : Outcomes) : Z :=
  match closedir_fault oc with
  | Some e => e
  | None => default 0%Z (readdir_fault oc)
  end.

(** The calls of a scan over [names] that reaches the end of the stream. *)
Definition listing_trace (db_dir : string) (names : list string) : list syscall :=
  [SysOpendir db_dir] ++ replicate (S (length names)) SysReaddir ++ [SysClosedir].


(** The loop of [read] as a function of the bytes and of the array it
    fills: the array at the end, and the remaining bytes unless
    [unpack_uint] failed. *)
Fixpoint decode_roots (table_no n : nat) (p : list ascii) (root : list Z)
    : list Z * option (list ascii) :=
  match n with
  | O => (root, Some p)
  | S n' =>
      match p with
      | _ :: _ =>
          let '(ok, p', r) := unpack_uint p (root !!! table_no) in
          if ok then decode_roots (S table_no) n' p' (<[table_no := r]> root)
          else (<[table_no := r]> root, None)
      | [] => decode_roots (S table_no) n' p (<[table_no := NO_ROOT]> root)
      end
  end.

(** What [read] does to the object and how it ends, as a function of the
    bytes of the file. *)
Definition decode (filename : string) (contents : list ascii) (o : BrassVersion)
    : result () * BrassVersion :=
  let buf := take 256 contents in
  if length buf <? 32 then (Throw (DatabaseCorruptError "Couldn't read enough (EOF)"), o)
  else
    match memcmp_bytes buf BRASS_VERSION_MAGIC BRASS_VERSION_MAGIC_LEN with
    | Eq =>
        let version := Z.lor (Z.shiftl (byte_at buf 14) 8) (byte_at buf 15) in
        if negb (version =? BRASS_FORMAT_VERSION)%Z then
          (Throw (DatabaseVersionError
                    (filename +:+ ": Database is format version " +:+ version_date version
                       +:+ " but I only understand " +:+ version_date BRASS_FORMAT_VERSION)),
           o)
        else
          let '(roots, p) := decode_roots 0 MAX_ (drop 16 (drop 16 buf)) (root o) in
          let o' := mkBrassVersion (rev o) roots (new_root o) (take 16 (drop 16 buf)) in
          match p with
          | None => (Throw (DatabaseCorruptError "Rev file roots"), o')
          | Some (_ :: _) => (Throw (DatabaseCorruptError "Rev file has junk at end"), o')
          | Some [] => (Ok (), o')
          end
    | _ => (Throw (DatabaseCorruptError "Rev file magic incorrect"), o)
    end.

(** What the codec needs of [pack.h]: a value of [brass_block_t] is
    packed into at least one byte, and [unpack_uint] reads it back from
    the front of any stream, leaving the rest. *)
Definition pack_contract : Prop :=
  ∀ v rest old, (0 ≤ v ≤ NO_ROOT)%Z →
    pack_uint v ≠ [] ∧ unpack_uint (pack_uint v ++ rest) old = (true, rest, v).

(** The bytes that the loop of [write] appends for the roots [vals]. *)
Definition packed (vals : list Z) : list ascii := mjoin (pack_uint <$> vals).

(** The date of [v] has eight characters and is not the date of the
    expected version, unless [v] is the expected version. *)
Definition date_distinct (v : Z) : bool :=
  (String.length (version_date v) =? 8)
  && ((v =? BRASS_FORMAT_VERSION)%Z
      || negb (String.eqb (version_date v) (version_date BRASS_FORMAT_VERSION))).

(** The [n] integers from [start] on. *)
Fixpoint Z_range (n : nat) (start : Z) : list Z :=
  match n with
  | O => []
  | S n' => start :: Z_range n' (start + 1)
  end.

End Vocabulary.

(** Runs in which the open of the temporary file, the sync (and then
    also the close), the close, the rename, the open of a revision file
    and [closedir] fail. *)
Definition open_w_fails : Outcomes :=
  mkOutcomes (Some 13%Z) None None None None None None (inr []) None None sample_uuid.
Definition sync_fails : Outcomes :=
  mkOutcomes None None (Some 5%Z) (Some 9%Z) None None None (inr []) None None sample_uuid.
Definition close_fails : Outcomes :=
  mkOutcomes None None None (Some 9%Z) None None None (inr []) None None sample_uuid.
Definition rename_fails : Outcomes :=
  mkOutcomes None None None None (Some 18%Z) None None (inr []) None None sample_uuid.
Definition open_r_fails : Outcomes :=
  mkOutcomes None None None None None None (Some 13%Z) (inr sample_names) None None
    sample_uuid.
Definition closedir_fails : Outcomes :=
  mkOutcomes None None None None None None None (inr sample_names) None (Some 9%Z)
    sample_uuid.

(** A revision file with the roots of two tables, and one whose third
    root is cut after a continuation byte. *)
Definition two_roots_file : list ascii :=
  BRASS_VERSION_MAGIC ++ [to_char 0; to_char 53] ++ sample_uuid
    ++ [to_char 7; to_char 255; to_char 255; to_char 255; to_char 255; to_char 15].
Definition cut_root_file : list ascii :=
  BRASS_VERSION_MAGIC ++ [to_char 0; to_char 53] ++ sample_uuid
    ++ [to_char 7] ++ [to_char 200].

(** ** More vocabulary *)

(** The number of [close] calls in a trace. *)
Fixpoint closes (t : list syscall) : nat :=
  match t with
  | [] => 0
  | SysClose _ :: t' => S (closes t')
  | _ :: t' => closes t'
  end.

(** The outcomes [oc] with the listing of the directory replaced. *)
Definition with_listing (oc : Outcomes) (names : list string) : Outcomes :=
  mkOutcomes (open_w_fault oc) (write_fault oc) (sync_fault oc) (close_fault oc)
    (rename_fault oc) (unlink_fault oc) (open_r_fault oc) (inr names)
    (readdir_fault oc) (closedir_fault oc) (uuid_generated oc).

(** * Properties *)

(** ** Tactics for the monad *)

Ltac unfold_prims :=
  unfold sys_open_w, brass_io_write, brass_io_sync, sys_close, sys_rename,
    sys_unlink, sys_open_r, brass_io_read, sys_opendir, sys_readdir_null,
    sys_closedir, uuid_generate, set_rev, set_root, set_new_root, set_uuid,
    get_errno, set_errno, log, set_files, get_files in *.

Ltac unfold_monad :=
  unfold run, at_scope_exit, try_catch, bind, ret, throw, outcomes, this,
    get_world, put_obj, put_world in *.

Ltac mstep := unfold_prims; unfold_monad; simpl in *.

(** Case analysis on what a computation inspects next. *)
Ltac case_outcome :=
  match goal with
  | |- context [match ?x with _ => _ end] =>
      lazymatch x with
      | context [match _ with _ => _ end] => fail
      | _ => idtac
      end;
      match type of x with
      | option _ => destruct x as [?|] eqn:?
      | bool => destruct x eqn:?
      | (_ * _)%type => is_var x; destruct x
      end; simpl
  end.

(** ** The commit sequence *)

Section WriteFacts.
Context `{BrassEnv}.

Lemma write_rejected db_dir new_rev oc s :
  (new_rev < rev (obj s))%Z →
  run (write db_dir new_rev) oc s
  = (Throw (DatabaseError ("New revision " +:+ str new_rev +:+ " < old revision "
                             +:+ str (rev (obj s))) 0), s).
Proof.
  intros Hlt. unfold run, write, bind, this.
  rewrite (proj2 (Z.ltb_lt _ _) Hlt). reflexivity.
Qed.

Lemma write_success db_dir new_rev oc s :
  (rev (obj s) ≤ new_rev)%Z → no_write_faults oc →
  run (write db_dir new_rev) oc s
  = (Ok (),
     mkState (committed (obj s) new_rev)
       (mkWorld
          (<[filename_of db_dir new_rev := write_buffer (obj s)]>
             (delete (tmpfile_of db_dir) (files (world s))))
          (errno (world s))
          (trace (world s)
             ++ [SysOpenW (tmpfile_of db_dir);
                 SysWrite (tmpfile_of db_dir) (write_buffer (obj s));
                 SysSync (tmpfile_of db_dir);
                 SysClose (tmpfile_of db_dir);
                 SysRename (tmpfile_of db_dir) (filename_of db_dir new_rev)]))).
Proof.
  intros Hle (Ho & Hw & Hs & Hc & Hr).
  unfold write. mstep.
  rewrite (proj2 (Z.ltb_ge _ _) Hle), Ho. simpl.
  rewrite Hw. simpl. rewrite Hs. simpl. rewrite Hc. simpl. rewrite Hr.
  rewrite !lookup_insert_eq. simpl.
  rewrite insert_insert_eq, delete_insert_eq.
  rewrite <- !app_assoc. reflexivity.
Qed.

Lemma write_throw_keeps_obj db_dir new_rev oc s :
  match run (write db_dir new_rev) oc s with
  | (Throw _, s') => obj s' = obj s
  | (Ok _, s') => obj s' = committed (obj s) new_rev
  end.
Proof.
  unfold write. mstep.
  repeat first
    [ reflexivity
    | rewrite lookup_insert_eq; simpl
    | case_outcome ].
Qed.

Lemma write_ok_iff db_dir new_rev oc s :
  (∃ s', run (write db_dir new_rev) oc s = (Ok (), s'))
  ↔ (rev (obj s) ≤ new_rev)%Z ∧ no_write_faults oc.
Proof.
  split.
  - intros [s' Hrun]. revert Hrun. unfold no_write_faults, write. mstep.
    destruct (new_rev <? rev (obj s))%Z eqn:Hrev; [discriminate|].
    apply Z.ltb_ge in Hrev.
    repeat first
      [ discriminate
      | rewrite lookup_insert_eq; simpl
      | case_outcome ];
    intros _; repeat split; assumption.
  - intros [Hle Hoc]. eexists. apply write_success; assumption.
Qed.

(** The three later failures: the temporary file is unlinked, and it is
    gone unless [unlink] itself fails. *)
Lemma write_unlinks_after_sync_close_rename_failure db_dir new_rev oc s :
  (rev (obj s) ≤ new_rev)%Z →
  open_w_fault oc = None → write_fault oc = None →
  sync_fault oc ≠ None ∨ close_fault oc ≠ None ∨ rename_fault oc ≠ None →
  ∃ msg e s',
    run (write db_dir new_rev) oc s = (Throw (DatabaseOpeningError msg e), s')
    ∧ last (trace (world s')) = Some (SysUnlink (db_dir +:+ "v.tmp"))
    ∧ (unlink_fault oc = None → files (world s') !! (db_dir +:+ "v.tmp") = None).
Proof.
  intros Hle Ho Hw Hfault. unfold write. mstep.
  rewrite (proj2 (Z.ltb_ge _ _) Hle), Ho. simpl. rewrite Hw. simpl.
  assert (Hfin : ∀ r : result () * State,
    (∃ msg e s', r = (Throw (DatabaseOpeningError msg e), s')
       ∧ last (trace (world s')) = Some (SysUnlink (db_dir +:+ "v.tmp"))
       ∧ (files (world s') !! (db_dir +:+ "v.tmp") = None ∨ unlink_fault oc ≠ None)) →
    ∃ msg e s', r = (Throw (DatabaseOpeningError msg e), s')
       ∧ last (trace (world s')) = Some (SysUnlink (db_dir +:+ "v.tmp"))
       ∧ (unlink_fault oc = None → files (world s') !! (db_dir +:+ "v.tmp") = None)).
  { intros r (msg & e & s' & -> & Hl & Hf). exists msg, e, s'.
    repeat split; [assumption|]. intros Hu. destruct Hf as [?|?]; congruence. }
  apply Hfin. clear Hfin.
  destruct (sync_fault oc) as [e1|] eqn:Hs; simpl.
  { destruct (close_fault oc); simpl;
      (destruct (unlink_fault oc); simpl; [|rewrite lookup_insert_eq; simpl]);
      do 3 eexists; (split; [reflexivity|]); simpl; rewrite last_snoc;
      (split; [reflexivity|]); first [right; discriminate | left; apply lookup_delete_eq]. }
  destruct (close_fault oc) as [e2|] eqn:Hc; simpl.
  { destruct (unlink_fault oc); simpl; [|rewrite lookup_insert_eq; simpl];
      do 3 eexists; (split; [reflexivity|]); simpl; rewrite last_snoc;
      (split; [reflexivity|]); first [right; discriminate | left; apply lookup_delete_eq]. }
  destruct (rename_fault oc) as [e3|] eqn:Hr; simpl.
  { destruct (unlink_fault oc); simpl; [|rewrite lookup_insert_eq; simpl];
      do 3 eexists; (split; [reflexivity|]); simpl; rewrite last_snoc;
      (split; [reflexivity|]); first [right; discriminate | left; apply lookup_delete_eq]. }
  exfalso. destruct Hfault as [?|[?|?]]; congruence.
Qed.

Lemma fill_from_take_replicate (a : list Z) v n table_no :
  table_no + n = length a →
  fill_from table_no n v a = take table_no a ++ replicate n v.
Proof.
  revert a table_no. induction n as [|n IH]; intros a table_no Hlen; simpl.
  - rewrite app_nil_r, take_ge; [reflexivity | lia].
  - rewrite IH by (rewrite length_insert; lia).
    rewrite (take_S_r _ _ v) by (rewrite list_lookup_insert_eq; [reflexivity | lia]).
    rewrite take_insert_ge by lia.
    rewrite <- app_assoc. reflexivity.
Qed.

Lemma fill_from_all (a : list Z) v n :
  length a = n → fill_from 0 n v a = replicate n v.
Proof.
  intros Hlen. rewrite fill_from_take_replicate by lia. reflexivity.
Qed.

Lemma trim_table_last_all_no_root t n :
  t ≤ n → trim_table_last t (replicate n NO_ROOT) = 0.
Proof.
  induction t as [|t IH]; intros Hle; simpl; [reflexivity|].
  rewrite lookup_total_replicate_2 by lia.
  rewrite Z.eqb_refl. apply IH. lia.
Qed.

Lemma write_header_length u : length u = 16 → length (write_header u) = 32.
Proof.
  intros Hu. unfold write_header. rewrite !length_app, length_take, Hu. reflexivity.
Qed.

Lemma write_buffer_all_no_root o :
  new_root o = replicate MAX_ NO_ROOT → write_buffer o = write_header (uuid o).
Proof.
  intros Hr. unfold write_buffer. rewrite Hr, trim_table_last_all_no_root by lia.
  reflexivity.
Qed.

(** C3, as amended.  When the new revision is strictly below the current
    one, [write] throws the generic [DatabaseError] and leaves everything
    as it was: no system call is made, the files are the same, and the
    object is the same. *)
Theorem write_lower_revision_rejected db_dir r2 oc s :
  (r2 < rev (obj s))%Z →
  ∃ e s',
    run (write db_dir r2) oc s = (Throw e, s')
    ∧ is_generic_error e = true
    ∧ trace (world s') = trace (world s)
    ∧ files (world s') = files (world s)
    ∧ obj s' = obj s.
Proof.
  intros Hlt. rewrite write_rejected by assumption.
  eexists _, s. repeat split.
Qed.

(** C10.  Whenever [write] throws, the object is exactly as before: the
    revision, both root arrays and the UUID; when it returns, the revision
    is the new one and the committed roots are the staged ones.  It
    returns only if the revision is not below the current one and none of
    open, write, sync, close and rename fails. *)
Theorem write_atomic_on_object db_dir new_rev oc s :
  match run (write db_dir new_rev) oc s with
  | (Throw _, s') =>
      rev (obj s') = rev (obj s) ∧ root (obj s') = root (obj s)
      ∧ new_root (obj s') = new_root (obj s) ∧ uuid (obj s') = uuid (obj s)
  | (Ok _, s') =>
      rev (obj s') = new_rev ∧ root (obj s') = new_root (obj s)
      ∧ new_root (obj s') = new_root (obj s) ∧ uuid (obj s') = uuid (obj s)
  end
  ∧ ((∃ s', run (write db_dir new_rev) oc s = (Ok (), s'))
     ↔ (rev (obj s) ≤ new_rev)%Z
       ∧ open_w_fault oc = None ∧ write_fault oc = None ∧ sync_fault oc = None
       ∧ close_fault oc = None ∧ rename_fault oc = None).
Proof.
  split; [|apply write_ok_iff].
  pose proof (write_throw_keeps_obj db_dir new_rev oc s) as Hobj.
  destruct (run (write db_dir new_rev) oc s) as [[[]|e] s']; rewrite Hobj;
    repeat split.
Qed.

(** C5, at the failure of the data write.  When [brass_io_write] throws,
    [write] closes the descriptor and rethrows: the calls made are open,
    write and close, there is no unlink, and the temporary file stays
    with the bytes that reached it. *)
Theorem write_failure_leaves_tmpfile db_dir new_rev oc s n exn :
  (rev (obj s) ≤ new_rev)%Z →
  open_w_fault oc = None →
  write_fault oc = Some (n, exn) →
  ∃ s',
    run (write db_dir new_rev) oc s = (Throw exn, s')
    ∧ trace (world s')
      = trace (world s)
          ++ [SysOpenW (db_dir +:+ "v.tmp");
              SysWrite (db_dir +:+ "v.tmp") (write_buffer (obj s));
              SysClose (db_dir +:+ "v.tmp")]
    ∧ files (world s') !! (db_dir +:+ "v.tmp") = Some (take n (write_buffer (obj s))).
Proof.
  intros Hle Ho Hw. unfold write. mstep.
  rewrite (proj2 (Z.ltb_ge _ _) Hle), Ho. simpl. rewrite Hw. simpl.
  rewrite lookup_insert_eq. simpl.
  destruct (close_fault oc); simpl; eexists; (split; [reflexivity|]); simpl;
    rewrite <- !app_assoc, lookup_insert_eq; split; reflexivity.
Qed.

Lemma create_unfold db_dir oc s :
  run (create db_dir) oc s
  = run (write db_dir (rev (obj s))) oc
      (mkState
         (mkBrassVersion (rev (obj s)) (root (obj s))
            (fill_from 0 MAX_ NO_ROOT (new_root (obj s))) (uuid_generated oc))
         (world s)).
Proof. reflexivity. Qed.

(** C9, as amended.  [create] stores the generated UUID, sets every
    staged root to [NO_ROOT], keeps the current revision, and, when no
    call fails, publishes the file named by that revision holding exactly
    the 32 bytes of the header; for an object at revision 0 the file is
    [v00000000]. *)
Theorem create_writes_header db_dir oc s :
  no_write_faults oc →
  length (uuid_generated oc) = 16 →
  length (new_root (obj s)) = MAX_ →
  ∃ s',
    run (create db_dir) oc s = (Ok (), s')
    ∧ uuid (obj s') = uuid_generated oc
    ∧ new_root (obj s') = replicate MAX_ NO_ROOT
    ∧ rev (obj s') = rev (obj s)
    ∧ files (world s') !! (db_dir +:+ "/v" +:+ substring 0 8 (sprintf_08x (rev (obj s))))
      = Some (BRASS_VERSION_MAGIC ++ [to_char 0; to_char 53] ++ uuid_generated oc)
    ∧ length (BRASS_VERSION_MAGIC ++ [to_char 0; to_char 53] ++ uuid_generated oc) = 32
    ∧ (rev (obj s) = 0%Z →
       db_dir +:+ "/v" +:+ substring 0 8 (sprintf_08x (rev (obj s)))
       = db_dir +:+ "/v00000000").
Proof.
  intros Hoc Hu Hlen.
  rewrite create_unfold, fill_from_all by assumption.
  rewrite write_success by (done || reflexivity).
  eexists. split; [reflexivity|].
  cbn [obj world files committed uuid new_root rev].
  rewrite write_buffer_all_no_root by reflexivity.
  cbn [uuid]. unfold write_header. rewrite take_ge by lia.
  repeat split.
  - unfold filename_of. apply lookup_insert_eq.
  - rewrite !length_app, Hu. reflexivity.
  - intros ->. reflexivity.
Qed.

End WriteFacts.

(** ** The directory scan *)

Section ScanFacts.

Lemma lcxdigit_not_nul c : C_islcxdigit c = true → is_nul c = false.
Proof.
  destruct c as [[] [] [] [] [] [] [] []]; vm_compute; congruence.
Qed.

Lemma skip_lcxdigits_shift c s p left :
  skip_lcxdigits (String c s) (S p) left = S (skip_lcxdigits s p left).
Proof.
  revert p. induction left as [|left IH]; intros p; simpl; [reflexivity|].
  change (c_at (String c s) (S p)) with (c_at s p).
  destruct (negb (is_nul (c_at s p)) && C_islcxdigit (c_at s p)); [apply IH | reflexivity].
Qed.

Lemma skip_lcxdigits_le s p left : skip_lcxdigits s p left ≤ p + left.
Proof.
  revert p. induction left as [|left IH]; intros p; simpl; [lia|].
  destruct (negb (is_nul (c_at s p)) && C_islcxdigit (c_at s p)); [|lia].
  specialize (IH (S p)). lia.
Qed.

Lemma c_at_app_r d rest i : c_at (d +:+ rest) (String.length d + i) = c_at rest i.
Proof. induction d as [|c d IH]; simpl; [reflexivity | exact IH]. Qed.

Lemma c_at_app_l d rest i : i < String.length d → c_at (d +:+ rest) i = c_at d i.
Proof.
  revert i. induction d as [|c d IH]; intros i Hi; simpl in *; [lia|].
  destruct i as [|i]; [reflexivity|]. apply IH. lia.
Qed.

Lemma substring_app_prefix d rest :
  substring 0 (String.length d) (d +:+ rest) = d.
Proof.
  induction d as [|c d IH]; simpl.
  - destruct rest; reflexivity.
  - rewrite IH. reflexivity.
Qed.

(** The loop runs to the end exactly on a prefix of [left] digits. *)
Lemma skip_lcxdigits_full s left :
  skip_lcxdigits s 0 left = left
  ↔ ∃ d rest, s = d +:+ rest ∧ String.length d = left ∧ all_lcxdigit d = true.
Proof.
  revert s. induction left as [|left IH]; intros s; simpl.
  - split; [|reflexivity]. intros _. exists "", s. repeat split.
  - destruct s as [|c s].
    + simpl. split; [discriminate|].
      intros (d & rest & Hs & Hlen & _). destruct d; simpl in *; discriminate.
    + change (c_at (String c s) 0) with c. rewrite skip_lcxdigits_shift.
      destruct (C_islcxdigit c) eqn:Hc.
      * rewrite (lcxdigit_not_nul c Hc). simpl. split.
        -- intros Heq. injection Heq as Heq. apply IH in Heq as (d & rest & -> & Hlen & Hd).
           exists (String c d), rest. simpl. rewrite Hc, Hd, Hlen. repeat split.
        -- intros (d & rest & Hs & Hlen & Hd). f_equal. apply IH.
           destruct d as [|c' d]; simpl in *; [discriminate|].
           injection Hs as -> ->. injection Hlen as Hlen.
           apply andb_prop in Hd as [_ Hd]. exists d, rest. repeat split; assumption.
      * rewrite andb_false_r. split; [discriminate|].
        intros (d & rest & Hs & Hlen & Hd).
        destruct d as [|c' d]; simpl in *; [discriminate|].
        injection Hs as -> ->. rewrite Hc in Hd. discriminate.
Qed.

(** What the two tests of the loop body let through. *)
Lemma is_revision_name_decompose name :
  is_revision_name name = true
  ↔ ∃ d rest, name = String "v" (d +:+ rest) ∧ String.length d = 8
      ∧ all_lcxdigit d = true ∧ is_nul (c_at rest 0) = true.
Proof.
  unfold is_revision_name. destruct name as [|c0 tail].
  { split; [discriminate|]. intros (d & rest & Hn & _). discriminate. }
  change (c_at (String c0 tail) 0) with c0. rewrite skip_lcxdigits_shift.
  destruct (Ascii.eqb_spec c0 "v") as [->|Hne]; cbn [negb].
  2:{ split; [discriminate|]. intros (d & rest & Hn & _). congruence. }
  pose proof (skip_lcxdigits_le tail 0 8) as Hle.
  destruct (Nat.eq_dec (skip_lcxdigits tail 0 8) 8) as [Hfull|Hpart].
  - rewrite Hfull. cbn [Nat.eqb negb orb].
    change (c_at (String "v" tail) 9) with (c_at tail 8).
    apply skip_lcxdigits_full in Hfull as (d & rest & -> & Hlen & Hd).
    rewrite <- Hlen at 1. rewrite <- (Nat.add_0_r (String.length d)), c_at_app_r.
    destruct (is_nul (c_at rest 0)) eqn:Hnul; cbn [negb orb].
    + split; [|reflexivity]. intros _. exists d, rest. repeat split; assumption.
    + split; [discriminate|]. intros (d' & rest' & Heq & Hlen' & Hd' & Hnul').
      injection Heq as Heq.
      assert (c_at (d +:+ rest) 8 = c_at (d' +:+ rest') 8) as Hc by (rewrite Heq; reflexivity).
      rewrite <- Hlen in Hc at 1. rewrite <- Hlen' in Hc.
      rewrite <- (Nat.add_0_r (String.length d)), <- (Nat.add_0_r (String.length d')) in Hc.
      rewrite !c_at_app_r in Hc. congruence.
  - replace (S (skip_lcxdigits tail 0 8) =? 9) with false
      by (symmetry; apply Nat.eqb_neq; lia).
    rewrite orb_true_r. split; [discriminate|].
    intros (d & rest & Heq & Hlen & Hd & _). injection Heq as ->.
    exfalso. apply Hpart. apply skip_lcxdigits_full. exists d, rest. repeat split; assumption.
Qed.

Lemma nul_free_app d rest : nul_free (d +:+ rest) = nul_free d && nul_free rest.
Proof.
  induction d as [|c d IH]; simpl; [reflexivity|]. rewrite IH, andb_assoc. reflexivity.
Qed.

Lemma nul_free_head_nul rest :
  nul_free rest = true → is_nul (c_at rest 0) = true → rest = "".
Proof.
  destruct rest as [|c rest]; [reflexivity|]. simpl.
  change (c_at (String c rest) 0) with c. intros Hfree Hnul. rewrite Hnul in Hfree.
  discriminate.
Qed.

Lemma append_empty_r (s : string) : s +:+ "" = s.
Proof.
  induction s as [|c s IH]; [reflexivity|].
  change (String c (s +:+ "") = String c s). f_equal. exact IH.
Qed.


(** *** The order on suffixes *)

Ltac bool_to_Z :=
  repeat match goal with
    | H : _ && _ = true |- _ => apply andb_prop in H as [? ?]
    | H : _ || _ = true |- _ => apply orb_prop in H as [H|H]
    | H : _ && _ = false |- _ => apply andb_false_iff in H as [H|H]
    | H : (_ <=? _)%Z = true |- _ => apply Z.leb_le in H
    | H : (_ <=? _)%Z = false |- _ => apply Z.leb_gt in H
    end.

Lemma lcxdigit_val c :
  C_islcxdigit c = true →
  ∃ v, xdigit_val c = Some v ∧ (0 ≤ v < 16)%Z
    ∧ ((byte_val c ≤ 57 ∧ v = byte_val c - 48) ∨ (97 ≤ byte_val c ∧ v = byte_val c - 87))%Z.
Proof.
  unfold C_islcxdigit, xdigit_val. intros Hc.
  destruct ((48 <=? byte_val c)%Z && (byte_val c <=? 57)%Z) eqn:E1.
  - eexists. split; [reflexivity|]. bool_to_Z; lia.
  - simpl in Hc. rewrite Hc. eexists. split; [reflexivity|]. bool_to_Z; lia.
Qed.

(** Digits compare as bytes the way their values compare. *)
Lemma lcxdigit_compare c c' v v' :
  C_islcxdigit c = true → C_islcxdigit c' = true →
  xdigit_val c = Some v → xdigit_val c' = Some v' →
  (byte_val c ?= byte_val c')%Z = (v ?= v')%Z.
Proof.
  intros Hc Hc' Hv Hv'.
  destruct (lcxdigit_val c Hc) as (w & Hw & _ & Hcase).
  destruct (lcxdigit_val c' Hc') as (w' & Hw' & _ & Hcase').
  assert (w = v) by congruence. assert (w' = v') by congruence. subst w w'.
  unfold C_islcxdigit in Hc, Hc'. bool_to_Z;
    destruct (Z.compare_spec (byte_val c) (byte_val c'));
    destruct (Z.compare_spec v v'); try reflexivity; lia.
Qed.

Lemma strtoul16_from_lcx s acc :
  all_lcxdigit s = true →
  strtoul16_from acc s = (acc * 16 ^ Z.of_nat (String.length s) + strtoul16 s)%Z
  ∧ (0 ≤ strtoul16 s < 16 ^ Z.of_nat (String.length s))%Z.
Proof.
  unfold strtoul16. revert acc. induction s as [|c s IH]; intros acc Hs.
  - simpl. lia.
  - simpl in Hs. apply andb_prop in Hs as [Hc Hs].
    destruct (lcxdigit_val c Hc) as (v & Hv & Hrange & _).
    cbn [strtoul16_from String.length]. rewrite Hv.
    destruct (IH (acc * 16 + v)%Z Hs) as [-> Hb]. destruct (IH (0 * 16 + v)%Z Hs) as [-> _].
    rewrite Nat2Z.inj_succ, Z.pow_succ_r by lia. split; [lia | nia].
Qed.

Lemma strtoul16_cons c s v :
  C_islcxdigit c = true → all_lcxdigit s = true → xdigit_val c = Some v →
  strtoul16 (String c s) = (v * 16 ^ Z.of_nat (String.length s) + strtoul16 s)%Z.
Proof.
  intros Hc Hs Hv. unfold strtoul16 at 1. cbn [strtoul16_from]. rewrite Hv.
  destruct (strtoul16_from_lcx s (0 * 16 + v)%Z Hs) as [-> _]. lia.
Qed.

Lemma memcmp_cons a i c b j n :
  memcmp (String c a) (S i) b j n = memcmp a i b j n
  ∧ memcmp a i (String c b) (S j) n = memcmp a i b j n.
Proof.
  revert i j. induction n as [|n IH]; intros i j; [split; reflexivity|].
  cbn [memcmp].
  change (c_at (String c a) (S i)) with (c_at a i).
  change (c_at (String c b) (S j)) with (c_at b j).
  destruct (IH (S i) (S j)) as [-> ->]. split; reflexivity.
Qed.

Lemma memcmp_app_r a i d rest j n :
  j + n ≤ String.length d → memcmp a i (d +:+ rest) j n = memcmp a i d j n.
Proof.
  revert i j. induction n as [|n IH]; intros i j Hle; [reflexivity|].
  cbn [memcmp]. rewrite c_at_app_l by lia. rewrite IH by lia. reflexivity.
Qed.

(** [memcmp] on two digit strings of one length is the comparison of
    their values: the lexicographic and the numeric order agree. *)
Lemma memcmp_numeric a b :
  String.length a = String.length b →
  all_lcxdigit a = true → all_lcxdigit b = true →
  memcmp a 0 b 0 (String.length a) = (strtoul16 a ?= strtoul16 b)%Z.
Proof.
  revert b. induction a as [|c a IH]; intros [|c' b] Hlen Ha Hb; try discriminate.
  - reflexivity.
  - simpl in Hlen, Ha, Hb. injection Hlen as Hlen.
    apply andb_prop in Ha as [Hc Ha]. apply andb_prop in Hb as [Hc' Hb].
    destruct (lcxdigit_val c Hc) as (v & Hv & Hr & _).
    destruct (lcxdigit_val c' Hc') as (v' & Hv' & Hr' & _).
    cbn [String.length memcmp].
    change (c_at (String c a) 0) with c. change (c_at (String c' b) 0) with c'.
    rewrite (lcxdigit_compare c c' v v') by assumption.
    destruct (memcmp_cons a 0 c (String c' b) 1 (String.length a)) as [-> _].
    destruct (memcmp_cons a 0 c' b 0 (String.length a)) as [_ ->].
    rewrite IH by assumption.
    rewrite (strtoul16_cons c a v), (strtoul16_cons c' b v') by assumption.
    rewrite <- Hlen.
    destruct (strtoul16_from_lcx a 0 Ha) as [_ Hba].
    destruct (strtoul16_from_lcx b 0 Hb) as [_ Hbb]. rewrite <- Hlen in Hbb.
    set (P := (16 ^ Z.of_nat (String.length a))%Z) in *.
    set (A := strtoul16 a) in *. set (B := strtoul16 b) in *.
    destruct (Z.compare_spec v v'); destruct (Z.compare_spec A B);
      destruct (Z.compare_spec (v * P + A) (v' * P + B)); try reflexivity; nia.
Qed.

(** *** The loop over the entries *)

Lemma scan_entry_rejected newest name :
  is_revision_name name = false → scan_entry newest name = newest.
Proof. intros Hrej. unfold scan_entry. rewrite Hrej. reflexivity. Qed.

Lemma accepted_suffix name :
  is_revision_name name = true →
  hex8 (substring 1 8 name)
  ∧ (∀ a, memcmp a 0 name 1 8 = memcmp a 0 (substring 1 8 name) 0 8)
  ∧ (nul_free name = true → name = String "v" (substring 1 8 name)).
Proof.
  intros Hacc. pose proof Hacc as Hdec.
  apply is_revision_name_decompose in Hdec as (d & rest & -> & Hlen & Hd & Hnul).
  change (substring 1 8 (String "v" (d +:+ rest))) with (substring 0 8 (d +:+ rest)).
  rewrite <- Hlen, substring_app_prefix. repeat split; try assumption.
  - intros a. destruct (memcmp_cons a 0 "v" (d +:+ rest) 0 (String.length d)) as [_ ->].
    apply memcmp_app_r. lia.
  - intros Hfree. simpl in Hfree. rewrite nul_free_app in Hfree.
    apply andb_prop in Hfree as [_ Hfree].
    rewrite (nul_free_head_nul rest Hfree Hnul), append_empty_r. reflexivity.
Qed.

Lemma hex8_nonempty d : hex8 d → String.eqb d "" = false.
Proof. intros [Hlen _]. destruct d; [discriminate | reflexivity]. Qed.

Lemma scan_entry_accepted newest name :
  is_revision_name name = true → newest = "" ∨ hex8 newest →
  scan_entry newest name
  = if String.eqb newest "" then substring 1 8 name
    else if (strtoul16 newest <? strtoul16 (substring 1 8 name))%Z
         then substring 1 8 name else newest.
Proof.
  intros Hacc Hnew. unfold scan_entry. rewrite Hacc.
  destruct Hnew as [->|Hhex]; [reflexivity|].
  rewrite (hex8_nonempty _ Hhex). cbn [orb].
  destruct (accepted_suffix name Hacc) as ([Hlen Hd] & -> & _).
  destruct Hhex as [Hlen' Hd'].
  rewrite <- Hlen', memcmp_numeric by (assumption || congruence).
  unfold Z.ltb. destruct (strtoul16 newest ?= strtoul16 (substring 1 8 name))%Z; reflexivity.
Qed.

Lemma newest_of_step seen newest name :
  newest_of seen newest → newest_of (seen ++ [name]) (scan_entry newest name).
Proof.
  intros Hinv. destruct (is_revision_name name) eqn:Hacc.
  - assert (Hnew : newest = "" ∨ hex8 newest).
    { destruct Hinv as [[? _]|[? _]]; [left | right]; assumption. }
    rewrite scan_entry_accepted by assumption.
    destruct (accepted_suffix name Hacc) as (Hhex & _ & _).
    destruct Hinv as [[-> Hnone]|(Hhex' & (m & Hm & Hmacc & Hmeq) & Hmax)].
    + right. cbn [String.eqb]. split; [assumption|]. split.
      * exists name. rewrite elem_of_app, list_elem_of_singleton. auto.
      * intros n Hn Hnacc. apply elem_of_app in Hn as [Hn|Hn].
        -- rewrite (Hnone n Hn) in Hnacc. discriminate.
        -- apply list_elem_of_singleton in Hn as ->. lia.
    + right. rewrite (hex8_nonempty _ Hhex').
      destruct (Z.ltb_spec (strtoul16 newest) (strtoul16 (substring 1 8 name))) as [Hlt|Hge].
      * split; [assumption|]. split.
        -- exists name. rewrite elem_of_app, list_elem_of_singleton. auto.
        -- intros n Hn Hnacc. apply elem_of_app in Hn as [Hn|Hn].
           ++ specialize (Hmax n Hn Hnacc). lia.
           ++ apply list_elem_of_singleton in Hn as ->. lia.
      * split; [assumption|]. split.
        -- exists m. rewrite elem_of_app. auto.
        -- intros n Hn Hnacc. apply elem_of_app in Hn as [Hn|Hn].
           ++ exact (Hmax n Hn Hnacc).
           ++ apply list_elem_of_singleton in Hn as ->. lia.
  - rewrite scan_entry_rejected by assumption.
    destruct Hinv as [[-> Hnone]|(Hhex' & (m & Hm & Hmacc & Hmeq) & Hmax)].
    + left. split; [reflexivity|]. intros n Hn. apply elem_of_app in Hn as [Hn|Hn].
      * exact (Hnone n Hn).
      * apply list_elem_of_singleton in Hn as ->. assumption.
    + right. split; [assumption|]. split.
      * exists m. rewrite elem_of_app. auto.
      * intros n Hn Hnacc. apply elem_of_app in Hn as [Hn|Hn].
        -- exact (Hmax n Hn Hnacc).
        -- apply list_elem_of_singleton in Hn as ->. congruence.
Qed.

Lemma newest_of_foldl names seen newest :
  newest_of seen newest → newest_of (seen ++ names) (foldl scan_entry newest names).
Proof.
  revert seen newest. induction names as [|name names IH]; intros seen newest Hinv.
  - rewrite app_nil_r. exact Hinv.
  - cbn [foldl]. rewrite (cons_middle name), app_assoc.
    apply IH, newest_of_step, Hinv.
Qed.

Lemma newest_of_scan names : newest_of names (foldl scan_entry "" names).
Proof.
  apply (newest_of_foldl names [] ""). left. split; [reflexivity|].
  intros n Hn. inversion Hn.
Qed.

End ScanFacts.

Section OpenMostRecentFacts.
Context `{BrassEnv}.

Lemma scan_dir_run db_dir names newest oc s :
  run (scan_dir db_dir names newest) oc s
  = (if (errno_after_listing oc =? 0)%Z then Ok (foldl scan_entry newest names)
     else Throw (DatabaseError ("Couldn't read from directory: " +:+ db_dir)
                   (errno_after_listing oc)),
     mkState (obj s)
       (mkWorld (files (world s)) (errno_after_listing oc)
          (trace (world s) ++ replicate (S (length names)) SysReaddir ++ [SysClosedir]))).
Proof.
  unfold run. revert newest s. induction names as [|name names IH]; intros newest s.
  - unfold errno_after_listing. cbn [scan_dir]. mstep.
    destruct (readdir_fault oc) as [e1|]; destruct (closedir_fault oc) as [e2|]; simpl;
      rewrite <- ?app_assoc; simpl;
      try match goal with |- context [(?e =? 0)%Z] => destruct (e =? 0)%Z end;
      reflexivity.
  - cbn [scan_dir foldl]. unfold bind at 1 2. unfold set_errno, log. unfold_monad.
    cbn [fst snd obj world files errno trace].
    rewrite IH. cbn [obj world files errno trace length replicate].
    rewrite <- app_assoc. reflexivity.
Qed.


Lemma hex8_value_bound d : hex8 d → (0 ≤ strtoul16 d < 2 ^ 32)%Z.
Proof.
  intros [Hlen Hd]. destruct (strtoul16_from_lcx d 0 Hd) as [_ Hb].
  rewrite Hlen in Hb. exact Hb.
Qed.

Lemma Z_range_In n start v :
  (start ≤ v < start + Z.of_nat n)%Z → In v (Z_range n start).
Proof.
  revert start. induction n as [|n IH]; intros start Hv; [lia|].
  cbn [Z_range]. destruct (Z.eq_dec start v) as [->|Hne]; [left; reflexivity|].
  right. apply IH. lia.
Qed.

(** The name under which [write] publishes a revision passes the tests
    of the scan. *)
Lemma hex_digit_lcx d : (0 ≤ d < 16)%Z → C_islcxdigit (hex_digit d) = true.
Proof.
  intros Hd.
  assert (Hcases : d ∈ Z_range 16 0).
  { apply list_elem_of_In, Z_range_In. lia. }
  cbn [Z_range Z.add] in Hcases.
  repeat (apply elem_of_cons in Hcases as [->|Hcases]; [reflexivity|]).
  inversion Hcases.
Qed.

Lemma sprintf_08x_hex8 v : hex8 (sprintf_08x v).
Proof.
  split; [reflexivity|]. unfold sprintf_08x.
  cbn [map string_of_list_ascii all_lcxdigit].
  rewrite !hex_digit_lcx; [reflexivity | ..];
    (change 15%Z with (Z.ones 4); rewrite Z.land_ones by lia;
     apply Z.mod_pos_bound; reflexivity).
Qed.

Lemma written_name_is_revision_name v :
  is_revision_name (String "v" (substring 0 8 (sprintf_08x v))) = true.
Proof.
  destruct (sprintf_08x_hex8 v) as [Hlen Hd].
  pose proof (substring_app_prefix (sprintf_08x v) "") as Hsub.
  rewrite append_empty_r, Hlen in Hsub. rewrite Hsub.
  apply is_revision_name_decompose. exists (sprintf_08x v), "".
  rewrite append_empty_r. repeat split; assumption.
Qed.


(** C8, as amended.  When the directory cannot be opened, the error is
    [DatabaseOpeningError] with the [errno] of [opendir].  When the
    listing fails with a non-zero [errno] that [closedir] leaves in place,
    the error is the generic [DatabaseError] with that [errno]. *)
Theorem open_most_recent_listing_errors db_dir oc s :
  (∀ e, opendir_result oc = inl e →
     ∃ s',
       run (open_most_recent db_dir) oc s
       = (Throw (DatabaseOpeningError ("Couldn't open directory: " +:+ db_dir) e), s'))
  ∧ (∀ names e,
       opendir_result oc = inr names → readdir_fault oc = Some e →
       closedir_fault oc = None → e ≠ 0%Z →
       ∃ s',
         run (open_most_recent db_dir) oc s
         = (Throw (DatabaseError ("Couldn't read from directory: " +:+ db_dir) e), s')).
Proof.
  split.
  - intros e Hdir. unfold run, open_most_recent.
    unfold bind at 1. unfold sys_opendir, log. unfold_monad. rewrite Hdir.
    unfold get_errno, set_errno. unfold_monad. cbn. eexists. reflexivity.
  - intros names e Hdir Hrd Hcd Hne. unfold run, open_most_recent.
    unfold bind at 1. unfold sys_opendir, log. unfold_monad. rewrite Hdir.
    cbn [fst snd obj world files errno trace].
    match goal with
    | |- context [scan_dir db_dir names "" oc ?st] =>
        pose proof (scan_dir_run db_dir names "" oc st) as Hscan
    end.
    unfold run in Hscan. rewrite Hscan. clear Hscan.
    unfold errno_after_listing. rewrite Hcd, Hrd. cbn [from_option id].
    rewrite (proj2 (Z.eqb_neq e 0) Hne). eexists. reflexivity.
Qed.

End OpenMostRecentFacts.

(** ** Reading a revision file *)

Section ReadFacts.
Context `{BrassEnv}.

Lemma read_roots_decode n table_no p oc s :
  read_roots table_no n p oc s
  = match decode_roots table_no n p (root (obj s)) with
    | (roots, Some p') =>
        (Ok p', mkState (mkBrassVersion (rev (obj s)) roots (new_root (obj s)) (uuid (obj s)))
                  (world s))
    | (roots, None) =>
        (Throw (DatabaseCorruptError "Rev file roots"),
         mkState (mkBrassVersion (rev (obj s)) roots (new_root (obj s)) (uuid (obj s)))
           (world s))
    end.
Proof.
  revert table_no p s. induction n as [|n IH]; intros table_no p s.
  - destruct s as [[] ?]. reflexivity.
  - cbn [read_roots decode_roots]. unfold bind at 1. unfold this at 1.
    destruct p as [|c p].
    + unfold bind at 1. unfold set_root. unfold_monad. cbn [fst snd obj world].
      rewrite IH. reflexivity.
    + destruct (unpack_uint (c :: p) (root (obj s) !!! table_no)) as [[ok p'] r].
      unfold bind at 1. unfold set_root. unfold_monad. cbn [fst snd obj world].
      destruct ok; [rewrite IH|]; reflexivity.
Qed.

Lemma read_body_decode filename fd oc s contents :
  files (world s) !! fd = Some contents →
  ∃ w',
    read_body filename fd oc s
    = (fst (decode filename contents (obj s)),
       mkState (snd (decode filename contents (obj s))) w').
Proof.
  intros Hfile. unfold read_body, decode.
  unfold bind at 1. unfold brass_io_read, log, get_files. unfold_monad.
  cbn [fst snd obj world files errno trace]. rewrite Hfile. cbn [from_option id].
  set (buf := take 256 contents).
  destruct (length buf <? 32).
  { cbn. eexists. reflexivity. }
  cbn [fst snd].
  destruct (memcmp_bytes buf BRASS_VERSION_MAGIC BRASS_VERSION_MAGIC_LEN);
    try (cbn; eexists; reflexivity).
  destruct (negb (Z.lor (byte_at buf 14 ≪ 8) (byte_at buf 15) =? BRASS_FORMAT_VERSION)%Z).
  { cbn. eexists. reflexivity. }
  unfold set_uuid. unfold_monad.
  cbn [fst snd obj world files errno trace].
  rewrite read_roots_decode. cbn [obj world rev root new_root uuid].
  destruct (decode_roots 0 MAX_ (drop 16 (drop 16 buf)) (root (obj s))) as [roots [[|c p]|]];
    cbn; eexists; reflexivity.
Qed.

Lemma close_at_exit_keeps_obj fd oc s :
  ∃ w', snd ((sys_close fd ;;; ret ()) oc s) = mkState (obj s) w'.
Proof. mstep. destruct (close_fault oc); simpl; eexists; reflexivity. Qed.

(** [read] on a file that can be opened: the outcome and the object are
    those of [decode]. *)
Lemma read_decode filename oc s contents :
  open_r_fault oc = None →
  files (world s) !! filename = Some contents →
  ∃ w',
    run (read filename) oc s
    = (fst (decode filename contents (obj s)),
       mkState (snd (decode filename contents (obj s))) w').
Proof.
  intros Hopen Hfile. unfold run, read.
  unfold bind at 1. unfold sys_open_r, log, get_files. unfold_monad.
  cbn [fst snd obj world files errno trace]. rewrite Hopen, Hfile.
  match goal with
  | |- context [read_body filename filename oc ?st] =>
      destruct (read_body_decode filename filename oc st contents Hfile) as [w1 ->]
  end.
  cbn [obj].
  destruct (close_at_exit_keeps_obj filename oc
              (mkState (snd (decode filename contents (obj s))) w1)) as [w2 Hw2].
  unfold bind, ret in Hw2. cbn [obj] in Hw2.
  exists w2. f_equal. exact Hw2.
Qed.

(** *** Bytes *)

Lemma byte_val_range c : (0 ≤ byte_val c < 256)%Z.
Proof.
  unfold byte_val. pose proof (N_ascii_bounded c) as Hb. lia.
Qed.

Lemma byte_val_to_char v : byte_val (to_char v) = (v `mod` 256)%Z.
Proof.
  unfold byte_val, to_char.
  pose proof (Z.mod_pos_bound v 256 eq_refl) as Hb.
  rewrite N_ascii_embedding by lia. lia.
Qed.

Lemma byte_val_inj c c' : byte_val c = byte_val c' → c = c'.
Proof.
  unfold byte_val. intros Heq. apply N2Z.inj in Heq.
  rewrite <- (ascii_N_embedding c), <- (ascii_N_embedding c'), Heq. reflexivity.
Qed.

Lemma memcmp_bytes_eq a b n : memcmp_bytes a b n = Eq ↔ take n a = take n b.
Proof.
  revert a b. induction n as [|n IH]; intros a b; [simpl; split; reflexivity|].
  destruct a as [|x a], b as [|y b]; cbn [memcmp_bytes take]; try (split; congruence).
  destruct (Z.compare_spec (byte_val x) (byte_val y)) as [Hxy|Hxy|Hxy].
  - apply byte_val_inj in Hxy as ->. rewrite IH. split; congruence.
  - split; [discriminate|]. intros [= -> _]. lia.
  - split; [discriminate|]. intros [= -> _]. lia.
Qed.

(** The two version bytes, most significant first. *)
Lemma version_field b14 b15 :
  (0 ≤ b15 < 256)%Z → Z.lor (Z.shiftl b14 8) b15 = (b14 * 256 + b15)%Z.
Proof.
  intros Hb. rewrite Z.shiftl_mul_pow2 by lia. change (2 ^ 8)%Z with 256%Z.
  rewrite <- Z.add_nocarry_lor; [reflexivity|].
  apply Z.bits_inj'. intros n Hn. rewrite Z.land_spec, Z.bits_0.
  destruct (Z.lt_ge_cases n 8) as [Hlo|Hhi].
  - change 256%Z with (2 ^ 8)%Z. rewrite Z.mul_pow2_bits_low by lia. reflexivity.
  - destruct (Z.eq_dec b15 0%Z) as [->|Hnz]; [rewrite Z.bits_0; apply andb_false_r|].
    rewrite (Z.bits_above_log2 b15 n); [apply andb_false_r | lia |].
    assert (Z.log2 b15 < 8)%Z by (apply Z.log2_lt_pow2; lia). lia.
Qed.

(** *** The dates of the version error *)

Lemma date_distinct_all : forallb date_distinct (Z_range (Z.to_nat 65536) 0) = true.
Proof. vm_compute. reflexivity. Qed.

Lemma version_date_distinct v :
  (0 ≤ v < 65536)%Z →
  String.length (version_date v) = 8
  ∧ (v ≠ BRASS_FORMAT_VERSION → version_date v ≠ version_date BRASS_FORMAT_VERSION).
Proof.
  intros Hv. pose proof date_distinct_all as Hall.
  rewrite forallb_forall in Hall.
  assert (Hin : In v (Z_range (Z.to_nat 65536) 0)).
  { apply Z_range_In. rewrite Z2Nat.id; lia. }
  specialize (Hall v Hin). unfold date_distinct in Hall.
  apply andb_prop in Hall as [Hlen Hne]. split.
  - apply Nat.eqb_eq. exact Hlen.
  - intros Hv'. apply orb_prop in Hne as [Heq|Hne].
    + apply Z.eqb_eq in Heq. contradiction.
    + apply negb_true_iff, String.eqb_neq in Hne. exact Hne.
Qed.

(** *** The checks of the header *)

Lemma decode_short filename contents o :
  length contents < 32 →
  decode filename contents o
  = (Throw (DatabaseCorruptError "Couldn't read enough (EOF)"), o).
Proof.
  intros Hlen. unfold decode.
  replace (length (take 256 contents) <? 32) with true; [reflexivity|].
  symmetry. apply Nat.ltb_lt. rewrite length_take. lia.
Qed.

Lemma decode_bad_magic filename contents o :
  32 ≤ length contents → take 14 contents ≠ BRASS_VERSION_MAGIC →
  decode filename contents o
  = (Throw (DatabaseCorruptError "Rev file magic incorrect"), o).
Proof.
  intros Hlen Hmagic. unfold decode.
  replace (length (take 256 contents) <? 32) with false
    by (symmetry; apply Nat.ltb_ge; rewrite length_take; lia).
  destruct (memcmp_bytes (take 256 contents) BRASS_VERSION_MAGIC BRASS_VERSION_MAGIC_LEN)
    eqn:Hcmp; try reflexivity.
  exfalso. apply Hmagic. apply memcmp_bytes_eq in Hcmp.
  rewrite take_take in Hcmp. exact Hcmp.
Qed.

Lemma decode_good_magic filename contents o :
  32 ≤ length contents → take 14 contents = BRASS_VERSION_MAGIC →
  decode filename contents o
  = let version := (byte_at contents 14 * 256 + byte_at contents 15)%Z in
    if negb (version =? BRASS_FORMAT_VERSION)%Z then
      (Throw (DatabaseVersionError
                (filename +:+ ": Database is format version " +:+ version_date version
                   +:+ " but I only understand " +:+ version_date BRASS_FORMAT_VERSION)),
       o)
    else
      let '(roots, p) := decode_roots 0 MAX_ (drop 32 (take 256 contents)) (root o) in
      let o' := mkBrassVersion (rev o) roots (new_root o) (take 16 (drop 16 contents)) in
      match p with
      | None => (Throw (DatabaseCorruptError "Rev file roots"), o')
      | Some (_ :: _) => (Throw (DatabaseCorruptError "Rev file has junk at end"), o')
      | Some [] => (Ok (), o')
      end.
Proof.
  intros Hlen Hmagic. unfold decode.
  replace (length (take 256 contents) <? 32) with false
    by (symmetry; apply Nat.ltb_ge; rewrite length_take; lia).
  replace (memcmp_bytes (take 256 contents) BRASS_VERSION_MAGIC BRASS_VERSION_MAGIC_LEN)
    with Eq by (symmetry; apply memcmp_bytes_eq; rewrite take_take; exact Hmagic).
  assert (Hb : ∀ i, i < 256 → byte_at (take 256 contents) i = byte_at contents i).
  { intros i Hi. unfold byte_at. rewrite !nth_lookup, lookup_take_lt by lia. reflexivity. }
  rewrite !Hb by lia.
  rewrite version_field by apply byte_val_range.
  rewrite drop_drop.
  replace (take 16 (drop 16 (take 256 contents))) with (take 16 (drop 16 contents)).
  2:{ rewrite !take_drop_commute, take_take. reflexivity. }
  reflexivity.
Qed.

(** C6, as amended.  A file of at least 32 bytes with the right magic
    and a version field [v] other than the expected one makes [read] throw
    [DatabaseVersionError].  The message carries the date of [v] and the
    date of the expected version, each written as four digits of
    [v / 31 / 12 + 2010], two of [v / 31 % 12 + 1] and two of
    [v % 31 + 1]; the two dates have eight characters and differ. *)
Theorem read_version_mismatch filename oc s contents :
  open_r_fault oc = None →
  files (world s) !! filename = Some contents →
  32 ≤ length contents →
  take 14 contents = BRASS_VERSION_MAGIC →
  (byte_at contents 14 * 256 + byte_at contents 15)%Z ≠ BRASS_FORMAT_VERSION →
  let v := (byte_at contents 14 * 256 + byte_at contents 15)%Z in
  (∃ s',
     run (read filename) oc s
     = (Throw (DatabaseVersionError
                 (filename +:+ ": Database is format version " +:+ version_date v
                    +:+ " but I only understand " +:+ version_date BRASS_FORMAT_VERSION)),
        s'))
  ∧ version_date v
    = sprintf_0d 4 (v / 31 / 12 + 2010) +:+ sprintf_0d 2 ((v / 31) `mod` 12 + 1)
        +:+ sprintf_0d 2 (v `mod` 31 + 1)
  ∧ version_date BRASS_FORMAT_VERSION = "20100223"
  ∧ String.length (version_date v) = 8
  ∧ version_date v ≠ version_date BRASS_FORMAT_VERSION.
Proof.
  intros Hopen Hfile Hlen Hmagic Hv v.
  destruct (read_decode filename oc s contents Hopen Hfile) as [w' Hrun].
  rewrite decode_good_magic in Hrun by assumption. cbv zeta in Hrun. fold v in Hrun.
  rewrite (proj2 (Z.eqb_neq v BRASS_FORMAT_VERSION) Hv) in Hrun. cbn [negb fst snd] in Hrun.
  assert (Hrange : (0 ≤ v < 65536)%Z).
  { pose proof (byte_val_range (nth 14 contents Ascii.zero)).
    pose proof (byte_val_range (nth 15 contents Ascii.zero)).
    unfold v, byte_at. lia. }
  destruct (version_date_distinct v Hrange) as [Hdlen Hdne].
  split; [eexists; exact Hrun|]. repeat split; [exact Hdlen | exact (Hdne Hv)].
Qed.

(** C7.  [read] throws [DatabaseCorruptError] on a file that does not
    start with the magic, on a file of fewer than 32 bytes, and on a file
    with a good header in whose first 256 bytes something is left when
    the loop over the [MAX_] tables has decoded a root for each. *)
Theorem read_rejects_malformed filename oc s contents :
  open_r_fault oc = None →
  files (world s) !! filename = Some contents →
  (take 14 contents ≠ BRASS_VERSION_MAGIC →
   ∃ msg s', run (read filename) oc s = (Throw (DatabaseCorruptError msg), s'))
  ∧ (length contents < 32 →
     ∃ msg s', run (read filename) oc s = (Throw (DatabaseCorruptError msg), s'))
  ∧ (∀ roots c p,
       32 ≤ length contents →
       take 14 contents = BRASS_VERSION_MAGIC →
       (byte_at contents 14 * 256 + byte_at contents 15)%Z = BRASS_FORMAT_VERSION →
       decode_roots 0 MAX_ (drop 32 (take 256 contents)) (root (obj s))
       = (roots, Some (c :: p)) →
       ∃ s',
         run (read filename) oc s
         = (Throw (DatabaseCorruptError "Rev file has junk at end"), s')).
Proof.
  intros Hopen Hfile.
  destruct (read_decode filename oc s contents Hopen Hfile) as [w' Hrun].
  assert (Hshort : length contents < 32 →
    ∃ msg s', run (read filename) oc s = (Throw (DatabaseCorruptError msg), s')).
  { intros Hlen. rewrite decode_short in Hrun by assumption.
    do 2 eexists. exact Hrun. }
  split; [|split; [exact Hshort|]].
  - intros Hmagic. destruct (Nat.lt_ge_cases (length contents) 32) as [Hlt|Hge].
    + exact (Hshort Hlt).
    + rewrite decode_bad_magic in Hrun by assumption. do 2 eexists. exact Hrun.
  - intros roots c p Hlen Hmagic Hv Hroots.
    rewrite decode_good_magic in Hrun by assumption. cbv zeta in Hrun.
    rewrite Hv, Z.eqb_refl, Hroots in Hrun. cbn [negb fst snd] in Hrun.
    eexists. exact Hrun.
Qed.

(** *** Encoding, then decoding *)

Lemma pack_loop (l : list Z) n table_no s0 :
  table_no + n ≤ length l →
  foldl (λ s i, s ++ pack_uint (l !!! i)) s0 (seq table_no n)
  = s0 ++ packed (take n (drop table_no l)).
Proof.
  revert table_no s0. induction n as [|n IH]; intros table_no s0 Hlen.
  - simpl. rewrite app_nil_r. reflexivity.
  - cbn [seq foldl]. rewrite IH by lia.
    assert (Hlt : table_no < length l) by lia.
    apply lookup_lt_is_Some_2 in Hlt as [x Hx].
    rewrite (drop_S _ _ _ Hx), (list_lookup_total_correct _ _ _ Hx).
    unfold packed. cbn [take fmap list_fmap mjoin list_join].
    rewrite <- app_assoc. reflexivity.
Qed.

Lemma write_buffer_packed o :
  length (new_root o) = MAX_ →
  write_buffer o
  = write_header (uuid o)
      ++ packed (take (trim_table_last MAX_ (new_root o)) (new_root o)).
Proof.
  intros Hlen. unfold write_buffer.
  assert (Hle : ∀ t l, trim_table_last t l ≤ t).
  { induction t as [|t IH]; intros l; simpl; [lia|].
    destruct (l !!! t =? NO_ROOT)%Z; [specialize (IH l)|]; lia. }
  rewrite pack_loop by (specialize (Hle MAX_ (new_root o)); lia).
  rewrite drop_0. reflexivity.
Qed.

Lemma trim_table_last_spec t (l : list Z) :
  trim_table_last t l ≤ t
  ∧ (∀ i, trim_table_last t l ≤ i < t → l !!! i = NO_ROOT)
  ∧ (∀ K, trim_table_last t l = S K → l !!! K ≠ NO_ROOT).
Proof.
  induction t as [|t (IHle & IHtail & IHlast)]; simpl.
  - repeat split; intros; lia.
  - destruct (Z.eqb_spec (l !!! t) NO_ROOT) as [Heq|Hne].
    + split; [lia|]. split; [|exact IHlast].
      intros i Hi. destruct (Nat.eq_dec i t) as [->|Hit]; [exact Heq|].
      apply IHtail. lia.
    + split; [lia|]. split; [intros; lia|]. intros K [= <-]. exact Hne.
Qed.

(** With the highest root that is not [NO_ROOT] at [K], the loop stops
    at [K + 1]. *)
Lemma trim_table_last_highest t (l : list Z) K :
  K < t → l !!! K ≠ NO_ROOT → (∀ i, K < i < t → l !!! i = NO_ROOT) →
  trim_table_last t l = S K.
Proof.
  intros HK Hlast Htail.
  destruct (trim_table_last_spec t l) as (Hle & Hno & Hhi).
  destruct (trim_table_last t l) as [|K'] eqn:Htl.
  - exfalso. apply Hlast. apply Hno. lia.
  - f_equal. specialize (Hhi K' eq_refl).
    destruct (Nat.lt_trichotomy K' K) as [Hlt|[Heq|Hgt]]; [|exact Heq|].
    + exfalso. apply Hlast. apply Hno. lia.
    + exfalso. apply Hhi. apply Htail. lia.
Qed.

Lemma decode_roots_packed (Hpack : pack_contract) n vals table_no (root0 : list Z) :
  Forall (λ v, 0 ≤ v ≤ NO_ROOT)%Z vals →
  length vals ≤ n →
  table_no + n ≤ length root0 →
  decode_roots table_no n (packed vals) root0
  = (take table_no root0 ++ vals ++ replicate (n - length vals) NO_ROOT
       ++ drop (table_no + n) root0,
     Some []).
Proof.
  revert vals table_no root0. induction n as [|n IH]; intros vals table_no root0 Hvals Hn Hlen.
  - destruct vals; [|simpl in Hn; lia]. cbn [decode_roots packed fmap list_fmap mjoin list_join].
    rewrite Nat.add_0_r. simpl. rewrite take_drop. reflexivity.
  - assert (Hlt : table_no < length root0) by lia.
    destruct vals as [|v vals].
    + cbn [decode_roots packed fmap list_fmap mjoin list_join].
      change [] with (packed []) at 1.
      rewrite IH by (try constructor; rewrite ?length_insert; simpl; lia).
      f_equal. cbn [length app]. rewrite Nat.sub_0_r.
      rewrite (take_S_r _ _ NO_ROOT) by (rewrite list_lookup_insert_eq; [reflexivity | lia]).
      rewrite take_insert_ge by lia.
      rewrite drop_insert_lt by lia.
      rewrite <- app_assoc. cbn [replicate app].
      replace (S table_no + n) with (table_no + S n) by lia. reflexivity.
    + apply Forall_cons in Hvals as [Hv Hvals].
      change (packed (v :: vals)) with (pack_uint v ++ packed vals).
      destruct (Hpack v (packed vals) (root0 !!! table_no) Hv) as [Hne Hunpack].
      cbn [decode_roots].
      destruct (pack_uint v ++ packed vals) as [|c p] eqn:Hp.
      { apply app_eq_nil in Hp as [Hp _]. contradiction. }
      rewrite Hunpack.
      rewrite IH by first [assumption | rewrite ?length_insert; simpl in *; lia].
      f_equal.
      rewrite (take_S_r _ _ v) by (rewrite list_lookup_insert_eq; [reflexivity | lia]).
      rewrite take_insert_ge by lia.
      rewrite drop_insert_lt by lia.
      rewrite <- app_assoc. cbn [length app]. 
      replace (S table_no + n) with (table_no + S n) by lia.
      replace (S n - S (length vals)) with (n - length vals) by lia. reflexivity.
Qed.

Lemma write_header_fields u rest :
  length u = 16 →
  take 14 (write_header u ++ rest) = BRASS_VERSION_MAGIC
  ∧ (byte_at (write_header u ++ rest) 14 * 256 + byte_at (write_header u ++ rest) 15)%Z
    = BRASS_FORMAT_VERSION
  ∧ take 16 (drop 16 (write_header u ++ rest)) = u
  ∧ drop 32 (write_header u ++ rest) = rest.
Proof.
  intros Hu. unfold write_header. rewrite (take_ge u) by lia.
  split; [reflexivity|]. split; [reflexivity|].
  change 32 with (16 + 16). rewrite <- drop_drop.
  change (drop 16 ((BRASS_VERSION_MAGIC
            ++ [to_char (Z.land (BRASS_FORMAT_VERSION ≫ 8) 255)]
            ++ [to_char (Z.land BRASS_FORMAT_VERSION 255)] ++ u) ++ rest))
    with (u ++ rest).
  split; [apply take_app_length'; lia | apply drop_app_length'; lia].
Qed.

(** Decoding what [write] encodes gives back the staged roots and the
    UUID. *)
Lemma decode_write_buffer (Hpack : pack_contract) filename (w o : BrassVersion) :
  length (uuid w) = 16 →
  length (new_root w) = MAX_ →
  Forall (λ r, 0 ≤ r ≤ NO_ROOT)%Z (new_root w) →
  length (write_buffer w) ≤ 256 →
  length (root o) = MAX_ →
  decode filename (write_buffer w) o
  = (Ok (),
     mkBrassVersion (rev o)
       (take (trim_table_last MAX_ (new_root w)) (new_root w)
          ++ replicate (MAX_ - trim_table_last MAX_ (new_root w)) NO_ROOT)
       (new_root o) (uuid w)).
Proof.
  intros Hu Hlen Hrange Hsize Hroot.
  set (tl := trim_table_last MAX_ (new_root w)).
  destruct (trim_table_last_spec MAX_ (new_root w)) as (Hle & _ & _). fold tl in Hle.
  pose proof (write_buffer_packed w Hlen) as Hbuf. fold tl in Hbuf.
  destruct (write_header_fields (uuid w) (packed (take tl (new_root w))) Hu)
    as (Hmagic & Hversion & Huuid & Hdrop).
  rewrite <- Hbuf in Hmagic, Hversion, Huuid, Hdrop.
  rewrite decode_good_magic; [|rewrite Hbuf, length_app, write_header_length; lia | exact Hmagic].
  cbv zeta. rewrite Hversion, Z.eqb_refl. cbn [negb].
  rewrite (take_ge (write_buffer w)) by exact Hsize. rewrite Hdrop, Huuid.
  rewrite decode_roots_packed;
    [ | exact Hpack | apply Forall_take; exact Hrange | rewrite length_take; lia | lia ].
  rewrite length_take, Hlen, Nat.min_l by exact Hle.
  rewrite take_0, (drop_ge (root o)) by lia. rewrite app_nil_r. reflexivity.
Qed.

(** C1.  Whatever [write] encodes, [read] decodes: the UUID comes back,
    and so does every staged root.  With [K] the highest table whose root
    is not [NO_ROOT], the file holds the header and the packed roots of
    the tables [0..K] only, the roots read for [0..K] are the staged
    ones, and those read for [K+1..MAX_-1] are [NO_ROOT]; when every
    staged root is [NO_ROOT], every root read is [NO_ROOT]. *)
Theorem codec_roundtrip (w : BrassVersion) filename oc s :
  pack_contract →
  length (uuid w) = 16 →
  length (new_root w) = MAX_ →
  Forall (λ r, 0 ≤ r ≤ NO_ROOT)%Z (new_root w) →
  length (write_buffer w) ≤ 256 →
  open_r_fault oc = None →
  files (world s) !! filename = Some (write_buffer w) →
  length (root (obj s)) = MAX_ →
  ∃ s',
    run (read filename) oc s = (Ok (), s')
    ∧ uuid (obj s') = uuid w
    ∧ root (obj s') = new_root w
    ∧ (∀ K, K < MAX_ → new_root w !!! K ≠ NO_ROOT →
         (∀ i, K < i < MAX_ → new_root w !!! i = NO_ROOT) →
         write_buffer w = write_header (uuid w) ++ packed (take (S K) (new_root w))
         ∧ (∀ i, i ≤ K → root (obj s') !!! i = new_root w !!! i)
         ∧ (∀ i, K < i < MAX_ → root (obj s') !!! i = NO_ROOT))
    ∧ ((∀ i, i < MAX_ → new_root w !!! i = NO_ROOT) →
       write_buffer w = write_header (uuid w)
       ∧ ∀ i, i < MAX_ → root (obj s') !!! i = NO_ROOT).
Proof.
  intros Hpack Hu Hlen Hrange Hsize Hopen Hfile Hroot.
  destruct (read_decode filename oc s (write_buffer w) Hopen Hfile) as [w' Hrun].
  rewrite (decode_write_buffer Hpack) in Hrun by assumption. cbn [fst snd] in Hrun.
  eexists. split; [exact Hrun|]. cbn [obj uuid root].
  destruct (trim_table_last_spec MAX_ (new_root w)) as (Hle & Htail & _).
  set (tl := trim_table_last MAX_ (new_root w)) in *.
  assert (Hsame : take tl (new_root w) ++ replicate (MAX_ - tl) NO_ROOT = new_root w).
  { apply list_eq_same_length with MAX_;
      [exact Hlen | rewrite length_app, length_take, length_replicate; lia |].
    intros i x y Hi Hx Hy.
    destruct (Nat.lt_ge_cases i tl) as [Hlt|Hge].
    - rewrite lookup_app_l, lookup_take_lt in Hx by (rewrite ?length_take; lia). congruence.
    - rewrite lookup_app_r, length_take, Nat.min_l in Hx by (rewrite ?length_take; lia).
      apply lookup_replicate in Hx as [-> _].
      rewrite <- (Htail i ltac:(lia)). apply list_lookup_total_correct. exact Hy. }
  rewrite Hsame. split; [reflexivity|]. split; [reflexivity|]. split.
  - intros K HK Hlast Hno.
    pose proof (trim_table_last_highest MAX_ (new_root w) K HK Hlast Hno) as HtlK.
    fold tl in HtlK. split; [|split].
    + rewrite write_buffer_packed by assumption. fold tl. rewrite HtlK. reflexivity.
    + reflexivity.
    + intros i Hi. apply Hno. exact Hi.
  - intros Hall. split; [|exact Hall].
    assert (Htl0 : tl = 0).
    { destruct (trim_table_last_spec MAX_ (new_root w)) as (_ & _ & Hhi). fold tl in Hhi.
      destruct tl as [|K]; [reflexivity|]. exfalso. apply (Hhi K eq_refl). apply Hall. lia. }
    rewrite write_buffer_packed by assumption. fold tl. rewrite Htl0.
    apply app_nil_r.
Qed.

End ReadFacts.

(** ** The instance satisfies the contract *)

Lemma varint_pack_nonempty fuel v : Varint.pack_fuel fuel v ≠ [].
Proof. destruct fuel; simpl; [|destruct (128 <=? v)%Z]; discriminate. Qed.

Lemma varint_unpack_pack fuel v rest :
  (0 ≤ v < 128 ^ Z.of_nat (S fuel))%Z →
  Varint.unpack_go (Varint.pack_fuel fuel v ++ rest) = Some (v, rest).
Proof.
  revert v. induction fuel as [|fuel IH]; intros v Hv.
  - change (128 ^ Z.of_nat 1)%Z with 128%Z in Hv.
    cbn [Varint.pack_fuel app Varint.unpack_go].
    rewrite byte_val_to_char, Z.mod_small by lia.
    rewrite (proj2 (Z.ltb_lt v 128)) by lia. reflexivity.
  - cbn [Varint.pack_fuel]. destruct (Z.leb_spec 128 v) as [Hbig|Hsmall].
    + cbn [app Varint.unpack_go].
      pose proof (Z.mod_pos_bound v 128 eq_refl) as Hm.
      rewrite byte_val_to_char, Z.mod_small by lia.
      rewrite (proj2 (Z.ltb_ge (v `mod` 128 + 128) 128)) by lia.
      rewrite IH.
      * f_equal. f_equal. pose proof (Z.div_mod v 128). lia.
      * rewrite Nat2Z.inj_succ, Z.pow_succ_r in Hv by lia.
        split; [apply Z.div_pos; lia | apply Z.div_lt_upper_bound; lia].
    + cbn [app Varint.unpack_go].
      rewrite byte_val_to_char, Z.mod_small by lia.
      rewrite (proj2 (Z.ltb_lt v 128)) by lia. reflexivity.
Qed.

Lemma varint_contract : @pack_contract Varint.env.
Proof.
  intros v rest old Hv. change (@NO_ROOT Varint.env) with 4294967295%Z in Hv.
  split; [apply varint_pack_nonempty|].
  change (Varint.unpack (Varint.pack_fuel 4 v ++ rest) old = (true, rest, v)).
  unfold Varint.unpack. rewrite varint_unpack_pack by (cbn; lia).
  rewrite (proj2 (Z.ltb_lt v (2 ^ 32))) by lia. reflexivity.
Qed.

(** ** Runs of the instance *)

(** C4, at the directory [db].  The temporary file that [write] opens,
    writes, syncs, closes and renames is [dbv.tmp], next to the directory
    and not [db/v.tmp] inside it: the path is built without the separator
    that the path of the revision file gets.  The revision file itself is
    [db/v00000001]. *)
Theorem write_tmpfile_beside_directory :
  trace (world (snd (run (@write Varint.env "db" 1) no_faults
                       (mkState fresh_obj empty_world))))
  = [SysOpenW "dbv.tmp";
     SysWrite "dbv.tmp" (@write_buffer Varint.env fresh_obj);
     SysSync "dbv.tmp";
     SysClose "dbv.tmp";
     SysRename "dbv.tmp" "db/v00000001"]
  ∧ "db" +:+ "v.tmp" ≠ "db" +:+ "/" +:+ "v.tmp".
Proof. split; [vm_compute; reflexivity | discriminate]. Qed.

(** A new revision equal to the current one is not rejected: [write] at
    revision 0 on an object at revision 0 returns and publishes
    [db/v00000000]. *)
Lemma write_equal_revision_accepted :
  (rev fresh_obj ≤ rev fresh_obj)%Z
  ∧ fst (run (@write Varint.env "db" (rev fresh_obj)) no_faults (mkState fresh_obj empty_world))
    = Ok ()
  ∧ files empty_world !! "db/v00000000" = None
  ∧ files (world (snd (run (@write Varint.env "db" (rev fresh_obj)) no_faults
                         (mkState fresh_obj empty_world)))) !! "db/v00000000"
    = Some (@write_buffer Varint.env fresh_obj).
Proof. split; [reflexivity|]. vm_compute. repeat split. Qed.

(** Revision 4 on an object at revision 5. *)
Lemma write_lower_revision_rejected_witness :
  ∃ e s',
    run (@write Varint.env "db" 4) no_faults (mkState obj_at_rev_5 empty_world) = (Throw e, s')
    ∧ is_generic_error e = true
    ∧ trace (world s') = []
    ∧ files (world s') = ∅
    ∧ obj s' = obj_at_rev_5.
Proof.
  apply (@write_lower_revision_rejected Varint.env "db" 4 no_faults
           (mkState obj_at_rev_5 empty_world)).
  simpl. lia.
Defined.

(** The data write fails after ten bytes. *)
Lemma write_failure_leaves_tmpfile_witness :
  ∃ s',
    run (@write Varint.env "db" 1) write_fails (mkState staged_obj empty_world)
    = (Throw (DatabaseError "Error writing to file" 28), s')
    ∧ trace (world s')
      = [] ++ [SysOpenW "dbv.tmp"; SysWrite "dbv.tmp" (@write_buffer Varint.env staged_obj);
               SysClose "dbv.tmp"]
    ∧ files (world s') !! "dbv.tmp" = Some (take 10 (@write_buffer Varint.env staged_obj)).
Proof.
  apply (@write_failure_leaves_tmpfile Varint.env "db" 1 write_fails
           (mkState staged_obj empty_world) 10 (DatabaseError "Error writing to file" 28)).
  - simpl. lia.
  - reflexivity.
  - reflexivity.
Defined.

(** [create] on an object at revision 5 keeps that revision and
    publishes [db/v00000005]; no [db/v00000000] appears. *)
Lemma create_keeps_revision :
  fst (run (@create Varint.env "db") no_faults (mkState obj_at_rev_5 empty_world)) = Ok ()
  ∧ rev (obj (snd (run (@create Varint.env "db") no_faults (mkState obj_at_rev_5 empty_world))))
    = 5%Z
  ∧ files (world (snd (run (@create Varint.env "db") no_faults
                         (mkState obj_at_rev_5 empty_world)))) !! "db/v00000000" = None
  ∧ files (world (snd (run (@create Varint.env "db") no_faults
                         (mkState obj_at_rev_5 empty_world)))) !! "db/v00000005"
    = Some (BRASS_VERSION_MAGIC ++ [to_char 0; to_char 53] ++ sample_uuid).
Proof. vm_compute. repeat split. Qed.

(** [create] on a newly constructed object. *)
Lemma create_writes_header_witness :
  ∃ s',
    run (@create Varint.env "db") no_faults (mkState fresh_obj empty_world) = (Ok (), s')
    ∧ uuid (obj s') = sample_uuid
    ∧ new_root (obj s') = replicate 6 4294967295%Z
    ∧ rev (obj s') = 0%Z
    ∧ files (world s') !! "db/v00000000"
      = Some (BRASS_VERSION_MAGIC ++ [to_char 0; to_char 53] ++ sample_uuid)
    ∧ length (BRASS_VERSION_MAGIC ++ [to_char 0; to_char 53] ++ sample_uuid) = 32.
Proof.
  destruct (@create_writes_header Varint.env "db" no_faults (mkState fresh_obj empty_world))
    as (s' & Hrun & Hu & Hn & Hr & Hf & Hl & _).
  - repeat split.
  - reflexivity.
  - reflexivity.
  - exists s'. repeat split; assumption.
Defined.

(** The roots [NO_ROOT, NO_ROOT, 42, NO_ROOT, NO_ROOT, NO_ROOT]: three
    packed entries in the file, six roots read back. *)
Lemma codec_roundtrip_witness :
  ∃ s',
    run (@read Varint.env "db/v00000001") no_faults
      (mkState fresh_obj (world_with_file "db/v00000001" (@write_buffer Varint.env staged_obj)))
    = (Ok (), s')
    ∧ uuid (obj s') = sample_uuid
    ∧ root (obj s') = [4294967295; 4294967295; 42; 4294967295; 4294967295; 4294967295]%Z
    ∧ @write_buffer Varint.env staged_obj
      = write_header sample_uuid
          ++ @packed Varint.env [4294967295; 4294967295; 42]%Z.
Proof.
  destruct (@codec_roundtrip Varint.env staged_obj "db/v00000001" no_faults
              (mkState fresh_obj
                 (world_with_file "db/v00000001" (@write_buffer Varint.env staged_obj))))
    as (s' & Hrun & Hu & Hr & HK & _).
  - exact varint_contract.
  - reflexivity.
  - reflexivity.
  - repeat constructor; discriminate.
  - vm_compute. lia.
  - reflexivity.
  - vm_compute. reflexivity.
  - reflexivity.
  - exists s'. split; [exact Hrun|]. split; [exact Hu|]. split; [exact Hr|].
    destruct (HK 2) as (Hbuf & _ & _).
    + simpl. lia.
    + vm_compute. discriminate.
    + intros i Hi. change (@MAX_ Varint.env) with 6 in Hi.
      destruct i as [|[|[|[|[|[|i]]]]]]; try lia; reflexivity.
    + exact Hbuf.
Defined.


(** A file of 20 bytes with the right magic and the version of the day
    after is not rejected for its version: [read] asks for 32 bytes before
    it looks at the magic or the version, and throws for the length. *)
Lemma short_file_is_not_version_error :
  take 14 short_file = BRASS_VERSION_MAGIC
  ∧ (byte_at short_file 14 * 256 + byte_at short_file 15)%Z = 54%Z
  ∧ BRASS_FORMAT_VERSION = 53%Z
  ∧ fst (run (@read Varint.env "db/v00000001") no_faults
           (mkState fresh_obj (world_with_file "db/v00000001" short_file)))
    = Throw (DatabaseCorruptError "Couldn't read enough (EOF)").
Proof. vm_compute. repeat split. Qed.

(** A file of the format of the day after. *)
Lemma read_version_mismatch_witness :
  ∃ s',
    run (@read Varint.env "db/v00000001") no_faults
      (mkState fresh_obj (world_with_file "db/v00000001" later_format_file))
    = (Throw (DatabaseVersionError
                "db/v00000001: Database is format version 20100224 but I only understand 20100223"),
       s').
Proof.
  destruct (@read_version_mismatch Varint.env "db/v00000001" no_faults
              (mkState fresh_obj (world_with_file "db/v00000001" later_format_file))
              later_format_file)
    as (Hrun & _).
  - reflexivity.
  - vm_compute. reflexivity.
  - vm_compute. lia.
  - reflexivity.
  - vm_compute. discriminate.
  - exact Hrun.
Defined.

(** A wrong first byte, a file of 20 bytes, and a byte after the roots
    of all six tables. *)
Lemma read_rejects_malformed_witness :
  (∃ msg s',
     run (@read Varint.env "db/v00000001") no_faults
       (mkState fresh_obj (world_with_file "db/v00000001" bad_magic_file))
     = (Throw (DatabaseCorruptError msg), s'))
  ∧ (∃ msg s',
       run (@read Varint.env "db/v00000001") no_faults
         (mkState fresh_obj (world_with_file "db/v00000001" short_file))
       = (Throw (DatabaseCorruptError msg), s'))
  ∧ (∃ s',
       run (@read Varint.env "db/v00000001") no_faults
         (mkState fresh_obj (world_with_file "db/v00000001" junk_file))
       = (Throw (DatabaseCorruptError "Rev file has junk at end"), s')).
Proof.
  split; [|split].
  - apply (proj1 (@read_rejects_malformed Varint.env "db/v00000001" no_faults
             (mkState fresh_obj (world_with_file "db/v00000001" bad_magic_file))
             bad_magic_file eq_refl ltac:(vm_compute; reflexivity))).
    vm_compute. intros Heq. discriminate Heq.
  - apply (proj1 (proj2 (@read_rejects_malformed Varint.env "db/v00000001" no_faults
             (mkState fresh_obj (world_with_file "db/v00000001" short_file))
             short_file eq_refl ltac:(vm_compute; reflexivity)))).
    vm_compute. lia.
  - apply (proj2 (proj2 (@read_rejects_malformed Varint.env "db/v00000001" no_faults
             (mkState fresh_obj (world_with_file "db/v00000001" junk_file))
             junk_file eq_refl ltac:(vm_compute; reflexivity)))
             [1; 2; 3; 4; 5; 6]%Z (to_char 7) []).
    + vm_compute. lia.
    + reflexivity.
    + reflexivity.
    + vm_compute. reflexivity.
Defined.

(** A listing that fails with [errno] 5 ends in the generic
    [DatabaseError], which is not the opening error. *)
Lemma listing_failure_is_not_opening_error :
  fst (run (@open_most_recent Varint.env "db") listing_fails (mkState fresh_obj empty_world))
  = Throw (DatabaseError "Couldn't read from directory: db" 5)
  ∧ is_opening_error (DatabaseError "Couldn't read from directory: db" 5) = false.
Proof. vm_compute. split; reflexivity. Qed.

(** [opendir] fails with [errno] 13; [readdir] fails with [errno] 5. *)
Lemma open_most_recent_listing_errors_witness :
  (∃ s',
     run (@open_most_recent Varint.env "db") opendir_fails (mkState fresh_obj empty_world)
     = (Throw (DatabaseOpeningError "Couldn't open directory: db" 13), s'))
  ∧ (∃ s',
       run (@open_most_recent Varint.env "db") listing_fails (mkState fresh_obj empty_world)
       = (Throw (DatabaseError "Couldn't read from directory: db" 5), s')).
Proof.
  split.
  - apply (proj1 (@open_most_recent_listing_errors Varint.env "db" opendir_fails
                    (mkState fresh_obj empty_world)) 13%Z).
    reflexivity.
  - apply (proj2 (@open_most_recent_listing_errors Varint.env "db" listing_fails
                    (mkState fresh_obj empty_world)) ["v00000001"] 5%Z).
    + reflexivity.
    + reflexivity.
    + reflexivity.
    + discriminate.
Defined.

(** * Further properties *)

(** ** The version number as a date *)

Section DateFacts.

(** X1.  The three decoding macros invert [DATE_TO_VERSION] on every date
    from 2010 on with a month in 1..12 and a day in 1..31, and
    [DATE_TO_VERSION] inverts them on every version number from 0 on. *)
Theorem date_version_roundtrip Y M D v :
  (2010 ≤ Y)%Z → (1 ≤ M ≤ 12)%Z → (1 ≤ D ≤ 31)%Z → (0 ≤ v)%Z →
  VERSION_TO_YEAR (DATE_TO_VERSION Y M D) = Y
  ∧ VERSION_TO_MONTH (DATE_TO_VERSION Y M D) = M
  ∧ VERSION_TO_DAY (DATE_TO_VERSION Y M D) = D
  ∧ DATE_TO_VERSION (VERSION_TO_YEAR v) (VERSION_TO_MONTH v) (VERSION_TO_DAY v) = v.
Proof.
  intros HY HM HD Hv.
  unfold VERSION_TO_YEAR, VERSION_TO_MONTH, VERSION_TO_DAY, DATE_TO_VERSION.
  assert (Hq : ((((Y - 2010) * 12 + (M - 1)) * 31 + D - 1) / 31
                = (Y - 2010) * 12 + (M - 1))%Z).
  { symmetry. apply Z.div_unique with (D - 1)%Z; lia. }
  assert (Hr : ((((Y - 2010) * 12 + (M - 1)) * 31 + D - 1) `mod` 31 = D - 1)%Z).
  { symmetry. apply Z.mod_unique with ((Y - 2010) * 12 + (M - 1))%Z; lia. }
  rewrite Hq, Hr.
  assert (Hq' : (((Y - 2010) * 12 + (M - 1)) / 12 = Y - 2010)%Z).
  { symmetry. apply Z.div_unique with (M - 1)%Z; lia. }
  assert (Hr' : (((Y - 2010) * 12 + (M - 1)) `mod` 12 = M - 1)%Z).
  { symmetry. apply Z.mod_unique with (Y - 2010)%Z; lia. }
  rewrite Hq', Hr'. repeat split; try lia.
  pose proof (Z.div_mod v 31 ltac:(lia)). pose proof (Z.div_mod (v / 31) 12 ltac:(lia)).
  lia.
Qed.

(** X2.  Later dates have greater version numbers, and the version of a
    date fits the two bytes of the version field, that is, lies in
    0..65535, exactly when the date is from 2010 on and not after
    2186-03-02, the bound in the comment on the macros. *)
Theorem date_version_monotone Y M D Y' M' D' :
  (1 ≤ M ≤ 12)%Z → (1 ≤ D ≤ 31)%Z → (1 ≤ M' ≤ 12)%Z → (1 ≤ D' ≤ 31)%Z →
  ((DATE_TO_VERSION Y M D < DATE_TO_VERSION Y' M' D')%Z
   ↔ (Y < Y' ∨ (Y = Y' ∧ (M < M' ∨ (M = M' ∧ D < D'))))%Z)
  ∧ ((0 ≤ DATE_TO_VERSION Y M D ≤ 65535)%Z
     ↔ (2010 ≤ Y ∧ (Y < 2186 ∨ (Y = 2186 ∧ (M < 3 ∨ (M = 3 ∧ D ≤ 2)))))%Z).
Proof.
  intros HM HD HM' HD'. unfold DATE_TO_VERSION. split; split; lia.
Qed.

End DateFacts.

(** ** Revision numbers and file names *)

Section NameFacts.

Lemma xdigit_val_hex_digit d : (0 ≤ d < 16)%Z → xdigit_val (hex_digit d) = Some d.
Proof.
  intros Hd.
  assert (Hcases : d ∈ Z_range 16 0).
  { apply list_elem_of_In, Z_range_In. lia. }
  cbn [Z_range Z.add] in Hcases.
  repeat (apply elem_of_cons in Hcases as [->|Hcases]; [reflexivity|]).
  inversion Hcases.
Qed.

Lemma nibble_range v sh : (0 ≤ Z.land (Z.shiftr v sh) 15 < 16)%Z.
Proof.
  change 15%Z with (Z.ones 4). rewrite Z.land_ones by lia.
  apply Z.mod_pos_bound. reflexivity.
Qed.

(** Parsing the eight digits gives the number back. *)
Lemma strtoul16_sprintf_08x v : strtoul16 (sprintf_08x v) = (v `mod` 2 ^ 32)%Z.
Proof.
  unfold sprintf_08x, strtoul16.
  pose proof (Z.mod_pos_bound v (2 ^ 32) eq_refl) as Hv.
  set (w := (v `mod` 2 ^ 32)%Z) in *.
  cbn [map string_of_list_ascii strtoul16_from].
  rewrite !xdigit_val_hex_digit by apply nibble_range.
  change 15%Z with (Z.ones 4). rewrite !Z.land_ones, !Z.shiftr_div_pow2 by lia.
  change (2 ^ 32)%Z with 4294967296%Z in Hv.
  change (2 ^ 28)%Z with 268435456%Z. change (2 ^ 24)%Z with 16777216%Z.
  change (2 ^ 20)%Z with 1048576%Z. change (2 ^ 16)%Z with 65536%Z.
  change (2 ^ 12)%Z with 4096%Z. change (2 ^ 8)%Z with 256%Z.
  change (2 ^ 4)%Z with 16%Z. change (2 ^ 0)%Z with 1%Z.
  Z.div_mod_to_equations. lia.
Qed.

Lemma substring_full (d : string) : substring 0 (String.length d) d = d.
Proof.
  pose proof (substring_app_prefix d "") as Hsub.
  rewrite append_empty_r in Hsub. exact Hsub.
Qed.

(** X3.  The name that [write] gives to a 32-bit revision passes the
    tests of the scan, and the revision that [open_most_recent] computes
    from that name is the revision written. *)
Theorem revision_name_roundtrip r :
  (0 ≤ r < 2 ^ 32)%Z →
  let name := String "v" (substring 0 8 (sprintf_08x r)) in
  is_revision_name name = true
  ∧ (strtoul16 (substring 1 8 name) `mod` 2 ^ 32)%Z = r.
Proof.
  intros Hr name. split; [apply written_name_is_revision_name|].
  unfold name. change (substring 1 8 (String "v" ?d)) with (substring 0 8 d).
  destruct (sprintf_08x_hex8 r) as [Hlen _].
  pose proof (substring_full (sprintf_08x r)) as Hsub. rewrite Hlen in Hsub.
  rewrite !Hsub, strtoul16_sprintf_08x, Z.mod_mod, Z.mod_small by lia. reflexivity.
Qed.

(** X4.  The byte order in which the scan compares two written names is
    the order of their revisions. *)
Theorem revision_name_order r1 r2 :
  (0 ≤ r1 < 2 ^ 32)%Z → (0 ≤ r2 < 2 ^ 32)%Z →
  memcmp (substring 0 8 (sprintf_08x r1)) 0
         (String "v" (substring 0 8 (sprintf_08x r2))) 1 8
  = (r1 ?= r2)%Z.
Proof.
  intros Hr1 Hr2.
  destruct (sprintf_08x_hex8 r1) as [Hlen1 Hd1]. destruct (sprintf_08x_hex8 r2) as [Hlen2 Hd2].
  pose proof (substring_full (sprintf_08x r1)) as Hs1. rewrite Hlen1 in Hs1.
  pose proof (substring_full (sprintf_08x r2)) as Hs2. rewrite Hlen2 in Hs2.
  rewrite Hs1, Hs2.
  destruct (memcmp_cons (sprintf_08x r1) 0 "v" (sprintf_08x r2) 0 8) as [_ ->].
  rewrite <- Hlen1, memcmp_numeric by (assumption || congruence).
  rewrite !strtoul16_sprintf_08x, !Z.mod_small by lia. reflexivity.
Qed.

End NameFacts.

(** ** More on the commit sequence *)

Section WriteMore.
Context `{BrassEnv}.

Lemma append_inv_head (d x y : string) : d +:+ x = d +:+ y → x = y.
Proof.
  induction d as [|c d IH]; intros Heq; [exact Heq|].
  apply IH. change (String c (d +:+ x) = String c (d +:+ y)) in Heq.
  injection Heq as Heq. exact Heq.
Qed.

(** The temporary file and the revision file never have the same path. *)
Lemma tmpfile_not_filename db_dir new_rev :
  db_dir +:+ "v.tmp" ≠ db_dir +:+ "/v" +:+ substring 0 8 (sprintf_08x new_rev).
Proof. intros Heq. apply append_inv_head in Heq. discriminate Heq. Qed.

Lemma closes_app t1 t2 : closes (t1 ++ t2) = closes t1 + closes t2.
Proof.
  induction t1 as [|c t1 IH]; [reflexivity|].
  destruct c; simpl; rewrite IH; reflexivity.
Qed.

(** X5.  When no call fails and the revision is not below the current one,
    [write] leaves the encoded buffer under the revision's name, no
    temporary file, and every other path as it was. *)
Theorem write_publishes db_dir new_rev oc s :
  (rev (obj s) ≤ new_rev)%Z →
  open_w_fault oc = None → write_fault oc = None → sync_fault oc = None →
  close_fault oc = None → rename_fault oc = None →
  ∃ s',
    run (write db_dir new_rev) oc s = (Ok (), s')
    ∧ files (world s') !! (db_dir +:+ "/v" +:+ substring 0 8 (sprintf_08x new_rev))
      = Some (write_buffer (obj s))
    ∧ files (world s') !! (db_dir +:+ "v.tmp") = None
    ∧ ∀ p, p ≠ db_dir +:+ "v.tmp" →
           p ≠ db_dir +:+ "/v" +:+ substring 0 8 (sprintf_08x new_rev) →
           files (world s') !! p = files (world s) !! p.
Proof.
  intros Hle Ho Hw Hs Hc Hr.
  rewrite write_success by first [assumption | repeat split; assumption].
  eexists. split; [reflexivity|]. cbn [world files]. unfold filename_of, tmpfile_of.
  split; [apply lookup_insert_eq|]. split.
  - rewrite lookup_insert_ne by (apply not_eq_sym, tmpfile_not_filename).
    apply lookup_delete_eq.
  - intros p Hp1 Hp2. rewrite lookup_insert_ne, lookup_delete_ne by congruence.
    reflexivity.
Qed.

(** X6.  A call of [write] that throws changes no file other than the
    temporary one: in particular the file under the revision's name is
    what it was before the call. *)
Theorem write_failure_touches_only_tmpfile db_dir new_rev oc s e s' p :
  run (write db_dir new_rev) oc s = (Throw e, s') →
  p ≠ db_dir +:+ "v.tmp" →
  files (world s') !! p = files (world s) !! p
  ∧ files (world s') !! (db_dir +:+ "/v" +:+ substring 0 8 (sprintf_08x new_rev))
    = files (world s) !! (db_dir +:+ "/v" +:+ substring 0 8 (sprintf_08x new_rev)).
Proof.
  intros Hrun Hp.
  assert (Hgen : ∀ q, q ≠ db_dir +:+ "v.tmp" →
                      files (world s') !! q = files (world s) !! q).
  { clear p Hp. intros q Hq. revert Hrun. unfold write. mstep.
    repeat first
      [ discriminate
      | rewrite lookup_insert_eq; simpl
      | case_outcome ];
      intros [= _ <-]; simpl;
      rewrite ?lookup_delete_ne, ?lookup_insert_ne by congruence; reflexivity. }
  split; [apply Hgen, Hp|].
  apply Hgen, not_eq_sym, tmpfile_not_filename.
Qed.

(** X7.  When the sync, the close or the rename fails, [write] throws
    [DatabaseOpeningError] with the message of that step and the [errno]
    of that step, whatever the later clean-up calls do to [errno], and the
    last call it makes is the unlink of the temporary file. *)
Theorem write_reports_failing_step db_dir new_rev oc s :
  (rev (obj s) ≤ new_rev)%Z →
  open_w_fault oc = None → write_fault oc = None →
  (∀ e, sync_fault oc = Some e →
     ∃ s', run (write db_dir new_rev) oc s
           = (Throw (DatabaseOpeningError
                       ("Failed to sync new rev file: " +:+ db_dir +:+ "v.tmp") e), s')
           ∧ last (trace (world s')) = Some (SysUnlink (db_dir +:+ "v.tmp")))
  ∧ (∀ e, sync_fault oc = None → close_fault oc = Some e →
       ∃ s', run (write db_dir new_rev) oc s
             = (Throw (DatabaseOpeningError
                         ("Failed to close new rev file: " +:+ db_dir +:+ "v.tmp") e), s')
             ∧ last (trace (world s')) = Some (SysUnlink (db_dir +:+ "v.tmp")))
  ∧ (∀ e, sync_fault oc = None → close_fault oc = None → rename_fault oc = Some e →
       ∃ s', run (write db_dir new_rev) oc s
             = (Throw (DatabaseOpeningError
                         ("Failed to rename new rev file: " +:+ db_dir +:+ "v.tmp") e), s')
             ∧ last (trace (world s')) = Some (SysUnlink (db_dir +:+ "v.tmp"))).
Proof.
  intros Hle Ho Hw. unfold write. mstep.
  rewrite (proj2 (Z.ltb_ge _ _) Hle), Ho. simpl. rewrite Hw. simpl.
  split; [|split].
  - intros e Hs. rewrite Hs. simpl.
    destruct (close_fault oc); simpl;
      (destruct (unlink_fault oc); simpl; [|rewrite lookup_insert_eq; simpl]);
      eexists; (split; [reflexivity|]); simpl; apply last_snoc.
  - intros e Hs Hc. rewrite Hs. simpl. rewrite Hc. simpl.
    destruct (unlink_fault oc); simpl; [|rewrite lookup_insert_eq; simpl];
      eexists; (split; [reflexivity|]); simpl; apply last_snoc.
  - intros e Hs Hc Hr. rewrite Hs. simpl. rewrite Hc. simpl. rewrite Hr. simpl.
    destruct (unlink_fault oc); simpl; [|rewrite lookup_insert_eq; simpl];
      eexists; (split; [reflexivity|]); simpl; apply last_snoc.
Qed.

(** X8.  When the temporary file cannot be opened, [write] throws
    [DatabaseOpeningError] with the [errno] of [open]; the open is the
    only call made, and neither the files nor the object change. *)
Theorem write_open_failure db_dir new_rev oc s e :
  (rev (obj s) ≤ new_rev)%Z →
  open_w_fault oc = Some e →
  ∃ s',
    run (write db_dir new_rev) oc s
    = (Throw (DatabaseOpeningError
                ("Couldn't write new rev file: " +:+ db_dir +:+ "v.tmp") e), s')
    ∧ trace (world s') = trace (world s) ++ [SysOpenW (db_dir +:+ "v.tmp")]
    ∧ files (world s') = files (world s)
    ∧ obj s' = obj s.
Proof.
  intros Hle Ho. unfold write. mstep.
  rewrite (proj2 (Z.ltb_ge _ _) Hle), Ho. simpl.
  eexists. repeat split.
Qed.

(** X9.  [write] closes the descriptor exactly once on every path on
    which the open succeeded, and never otherwise. *)
Theorem write_closes_once db_dir new_rev oc s :
  closes (trace (world (snd (run (write db_dir new_rev) oc s))))
  = closes (trace (world s))
    + (if (new_rev <? rev (obj s))%Z then 0
       else match open_w_fault oc with Some _ => 0 | None => 1 end).
Proof.
  unfold write. mstep.
  repeat first
    [ rewrite lookup_insert_eq; simpl
    | case_outcome ];
    simpl; rewrite ?closes_app; simpl; rewrite ?closes_app; simpl; lia.
Qed.

(** X10.  After a successful [write] at revision [r], a [write] at a
    lower revision is rejected and the published file stays. *)
Theorem write_then_lower_rejected db_dir r r2 oc oc2 s :
  (rev (obj s) ≤ r)%Z → (r2 < r)%Z →
  open_w_fault oc = None → write_fault oc = None → sync_fault oc = None →
  close_fault oc = None → rename_fault oc = None →
  ∃ s1 e,
    run (write db_dir r) oc s = (Ok (), s1)
    ∧ run (write db_dir r2) oc2 s1 = (Throw e, s1)
    ∧ is_generic_error e = true
    ∧ files (world s1) !! (db_dir +:+ "/v" +:+ substring 0 8 (sprintf_08x r))
      = Some (write_buffer (obj s)).
Proof.
  intros Hle Hlt Ho Hw Hs Hc Hr.
  rewrite write_success by first [assumption | repeat split; assumption].
  eexists _, _. split; [reflexivity|].
  rewrite write_rejected by exact Hlt.
  split; [reflexivity|]. split; [reflexivity|].
  cbn [world files]. apply lookup_insert_eq.
Qed.

End WriteMore.

(** ** More on reading *)

Section ReadMore.
Context `{BrassEnv}.

Lemma read_body_full filename fd oc s contents :
  files (world s) !! fd = Some contents →
  read_body filename fd oc s
  = (fst (decode filename contents (obj s)),
     mkState (snd (decode filename contents (obj s)))
       (mkWorld (files (world s)) (errno (world s)) (trace (world s) ++ [SysRead fd]))).
Proof.
  intros Hfile. unfold read_body, decode.
  unfold bind at 1. unfold brass_io_read, log, get_files. unfold_monad.
  cbn [fst snd obj world files errno trace]. rewrite Hfile. cbn [from_option id].
  set (buf := take 256 contents).
  destruct (length buf <? 32); [reflexivity|].
  cbn [fst snd].
  destruct (memcmp_bytes buf BRASS_VERSION_MAGIC BRASS_VERSION_MAGIC_LEN);
    try reflexivity.
  destruct (negb (Z.lor (byte_at buf 14 ≪ 8) (byte_at buf 15) =? BRASS_FORMAT_VERSION)%Z);
    [reflexivity|].
  unfold set_uuid. unfold_monad.
  cbn [fst snd obj world files errno trace].
  rewrite read_roots_decode. cbn [obj world rev root new_root uuid].
  destruct (decode_roots 0 MAX_ (drop 16 (drop 16 buf)) (root (obj s))) as [roots [[|c p]|]];
    reflexivity.
Qed.

(** [read] on a file that can be opened, with the calls it makes. *)
Lemma read_full filename oc s contents :
  open_r_fault oc = None →
  files (world s) !! filename = Some contents →
  run (read filename) oc s
  = (fst (decode filename contents (obj s)),
     mkState (snd (decode filename contents (obj s)))
       (mkWorld (files (world s))
          (match close_fault oc with Some e => e | None => errno (world s) end)
          (trace (world s) ++ [SysOpenR filename; SysRead filename; SysClose filename]))).
Proof.
  intros Hopen Hfile. unfold run, read.
  unfold bind at 1. unfold sys_open_r, log, get_files. unfold_monad.
  cbn [fst snd obj world files errno trace]. rewrite Hopen, Hfile.
  rewrite (read_body_full filename filename oc _ contents) by exact Hfile.
  cbn [obj world files errno trace]. unfold sys_close, log, set_errno. unfold_monad.
  cbn [fst snd obj world files errno trace].
  destruct (close_fault oc); cbn; rewrite <- !app_assoc; reflexivity.
Qed.

(** [read] on a file that cannot be opened. *)
Lemma read_not_opened filename oc s :
  open_r_fault oc ≠ None ∨ files (world s) !! filename = None →
  run (read filename) oc s
  = (Throw (DatabaseOpeningError
              (filename +:+ ": Failed to open brass revision file for reading")
              (default ENOENT (open_r_fault oc))),
     mkState (obj s)
       (mkWorld (files (world s)) (default ENOENT (open_r_fault oc))
          (trace (world s) ++ [SysOpenR filename]))).
Proof.
  intros Hfail. unfold run, read. mstep.
  destruct (open_r_fault oc) as [e|]; simpl; [reflexivity|].
  destruct Hfail as [Hfail|Hfail]; [congruence|]. rewrite Hfail. reflexivity.
Qed.

Lemma decode_keeps filename contents o :
  rev (snd (decode filename contents o)) = rev o
  ∧ new_root (snd (decode filename contents o)) = new_root o.
Proof.
  unfold decode.
  destruct (length (take 256 contents) <? 32); [split; reflexivity|].
  destruct (memcmp_bytes _ _ _); try (split; reflexivity).
  destruct (negb _); [split; reflexivity|].
  destruct (decode_roots _ _ _ _) as [roots [[|c p]|]]; split; reflexivity.
Qed.

Lemma read_keeps filename oc s :
  files (world (snd (run (read filename) oc s))) = files (world s)
  ∧ rev (obj (snd (run (read filename) oc s))) = rev (obj s)
  ∧ new_root (obj (snd (run (read filename) oc s))) = new_root (obj s).
Proof.
  destruct (open_r_fault oc) as [e|] eqn:Hopen.
  { rewrite read_not_opened by (left; congruence). repeat split. }
  destruct (files (world s) !! filename) as [contents|] eqn:Hfile.
  - rewrite (read_full filename oc s contents) by assumption.
    destruct (decode_keeps filename contents (obj s)) as [Hr Hn].
    cbn [snd obj world files]. repeat split; assumption.
  - rewrite read_not_opened by (right; assumption). repeat split.
Qed.

(** X11.  When the file cannot be opened, because [open] fails or because
    there is no such file, [read] throws [DatabaseOpeningError] with the
    [errno] of [open]; the open is its only call, and the object and the
    files are unchanged. *)
Theorem read_open_failure filename oc s :
  open_r_fault oc ≠ None ∨ files (world s) !! filename = None →
  ∃ e s',
    run (read filename) oc s
    = (Throw (DatabaseOpeningError
                (filename +:+ ": Failed to open brass revision file for reading") e), s')
    ∧ (∀ e', open_r_fault oc = Some e' → e = e')
    ∧ trace (world s') = trace (world s) ++ [SysOpenR filename]
    ∧ files (world s') = files (world s)
    ∧ obj s' = obj s.
Proof.
  intros Hfail. rewrite read_not_opened by exact Hfail.
  eexists _, _. split; [reflexivity|]. repeat split.
  intros e' He'. rewrite He'. reflexivity.
Qed.

(** X12.  Once the file is open, [read] makes the same three calls however
    it ends: open, read, close.  The descriptor is closed also when an
    exception leaves [read]. *)
Theorem read_closes_descriptor filename oc s contents :
  open_r_fault oc = None →
  files (world s) !! filename = Some contents →
  trace (world (snd (run (read filename) oc s)))
  = trace (world s) ++ [SysOpenR filename; SysRead filename; SysClose filename].
Proof.
  intros Hopen Hfile. rewrite (read_full filename oc s contents) by assumption.
  reflexivity.
Qed.

(** X13.  [read] never changes a file, the current revision or the
    staged roots, however it ends. *)
Theorem read_is_read_only filename oc s :
  files (world (snd (run (read filename) oc s))) = files (world s)
  ∧ rev (obj (snd (run (read filename) oc s))) = rev (obj s)
  ∧ new_root (obj (snd (run (read filename) oc s))) = new_root (obj s).
Proof. apply read_keeps. Qed.

(** X14.  A file rejected for its length, its magic or its version
    leaves the whole object as it was: these checks come before the first
    assignment. *)
Theorem read_header_rejection_keeps_object filename oc s contents :
  open_r_fault oc = None →
  files (world s) !! filename = Some contents →
  length contents < 32
  ∨ take 14 contents ≠ BRASS_VERSION_MAGIC
  ∨ (byte_at contents 14 * 256 + byte_at contents 15)%Z ≠ BRASS_FORMAT_VERSION →
  ∃ e s', run (read filename) oc s = (Throw e, s') ∧ obj s' = obj s.
Proof.
  intros Hopen Hfile Hbad. rewrite (read_full filename oc s contents) by assumption.
  destruct (Nat.lt_ge_cases (length contents) 32) as [Hlt|Hge].
  { rewrite decode_short by assumption. eexists _, _. split; reflexivity. }
  destruct (decide (take 14 contents = BRASS_VERSION_MAGIC)) as [Hmagic|Hmagic].
  2:{ rewrite decode_bad_magic by assumption. eexists _, _. split; reflexivity. }
  destruct Hbad as [Hbad|[Hbad|Hbad]]; [lia | contradiction |].
  rewrite decode_good_magic by assumption. cbv zeta.
  rewrite (proj2 (Z.eqb_neq _ _) Hbad). eexists _, _. split; reflexivity.
Qed.

End ReadMore.

(** ** More on the codec *)

Section CodecMore.
Context `{BrassEnv}.

(** The loop of [read] on a stream that starts with packed roots: they
    fill the next tables, and the loop goes on with what follows. *)
Lemma decode_roots_prefix (Hpack : pack_contract) vals rest n table_no (root0 : list Z) :
  Forall (λ v, 0 ≤ v ≤ NO_ROOT)%Z vals →
  length vals ≤ n →
  table_no + n ≤ length root0 →
  decode_roots table_no n (packed vals ++ rest) root0
  = decode_roots (table_no + length vals) (n - length vals) rest
      (take table_no root0 ++ vals ++ drop (table_no + length vals) root0).
Proof.
  revert n table_no root0.
  induction vals as [|v vals IH]; intros n table_no root0 Hvals Hn Hlen.
  - cbn [packed fmap list_fmap mjoin list_join app length].
    rewrite Nat.add_0_r, Nat.sub_0_r, take_drop. reflexivity.
  - apply Forall_cons in Hvals as [Hv Hvals].
    destruct n as [|n]; [simpl in Hn; lia|].
    change (packed (v :: vals) ++ rest) with ((pack_uint v ++ packed vals) ++ rest).
    rewrite <- app_assoc.
    destruct (Hpack v (packed vals ++ rest) (root0 !!! table_no) Hv) as [Hne Hunpack].
    cbn [decode_roots].
    destruct (pack_uint v ++ packed vals ++ rest) as [|c p] eqn:Hp.
    { apply app_eq_nil in Hp as [Hp _]. contradiction. }
    rewrite Hunpack.
    rewrite IH by first [assumption | rewrite ?length_insert; simpl in *; lia].
    cbn [length]. replace (S table_no + length vals) with (table_no + S (length vals)) by lia.
    replace (S n - S (length vals)) with (n - length vals) by lia.
    f_equal.
    rewrite (take_S_r _ _ v) by (rewrite list_lookup_insert_eq; [reflexivity | lia]).
    rewrite take_insert_ge by lia.
    rewrite drop_insert_lt by lia.
    rewrite <- app_assoc. reflexivity.
Qed.

(** The loop on an exhausted stream: every remaining table gets
    [NO_ROOT]. *)
Lemma decode_roots_exhausted n table_no (root0 : list Z) :
  table_no + n ≤ length root0 →
  decode_roots table_no n [] root0
  = (take table_no root0 ++ replicate n NO_ROOT ++ drop (table_no + n) root0, Some []).
Proof.
  revert table_no root0. induction n as [|n IH]; intros table_no root0 Hlen.
  - cbn [decode_roots replicate app]. rewrite Nat.add_0_r, take_drop. reflexivity.
  - cbn [decode_roots]. rewrite IH by (rewrite length_insert; lia).
    f_equal.
    rewrite (take_S_r _ _ NO_ROOT) by (rewrite list_lookup_insert_eq; [reflexivity | lia]).
    rewrite take_insert_ge by lia.
    rewrite drop_insert_lt by lia.
    rewrite <- app_assoc. cbn [replicate app].
    replace (S table_no + n) with (table_no + S n) by lia. reflexivity.
Qed.

(** [decode] on a header followed by any bytes. *)
Lemma decode_header_then filename u rest o :
  length u = 16 →
  length (write_header u ++ rest) ≤ 256 →
  decode filename (write_header u ++ rest) o
  = let '(roots, p) := decode_roots 0 MAX_ rest (root o) in
    let o' := mkBrassVersion (rev o) roots (new_root o) u in
    match p with
    | None => (Throw (DatabaseCorruptError "Rev file roots"), o')
    | Some (_ :: _) => (Throw (DatabaseCorruptError "Rev file has junk at end"), o')
    | Some [] => (Ok (), o')
    end.
Proof.
  intros Hu Hsize.
  destruct (write_header_fields u rest Hu) as (Hmagic & Hversion & Huuid & Hdrop).
  rewrite decode_good_magic;
    [|rewrite length_app, write_header_length by exact Hu; lia | exact Hmagic].
  cbv zeta. rewrite Hversion, Z.eqb_refl. cbn [negb].
  rewrite (take_ge (write_header u ++ rest)) by exact Hsize.
  rewrite Hdrop, Huuid. reflexivity.
Qed.

(** X15.  A file that holds the header and the packed roots of the first
    [k] tables only, whatever their values, is read as those [k] roots
    followed by [NO_ROOT] for every table from [k] on: a missing entry is
    not an error. *)
Theorem read_short_root_list filename oc s u vals :
  pack_contract →
  length u = 16 →
  Forall (λ v, 0 ≤ v ≤ NO_ROOT)%Z vals →
  length vals ≤ MAX_ →
  length (write_header u ++ packed vals) ≤ 256 →
  open_r_fault oc = None →
  files (world s) !! filename = Some (write_header u ++ packed vals) →
  length (root (obj s)) = MAX_ →
  ∃ s',
    run (read filename) oc s = (Ok (), s')
    ∧ uuid (obj s') = u
    ∧ root (obj s') = vals ++ replicate (MAX_ - length vals) NO_ROOT.
Proof.
  intros Hpack Hu Hvals Hk Hsize Hopen Hfile Hroot.
  rewrite (read_full filename oc s _ Hopen Hfile).
  rewrite decode_header_then by assumption.
  rewrite <- (app_nil_r (packed vals)).
  rewrite (decode_roots_prefix Hpack) by first [assumption | lia].
  rewrite decode_roots_exhausted by (rewrite !length_app, length_take, length_drop; lia).
  eexists. split; [reflexivity|]. cbn [obj uuid root snd]. split; [reflexivity|].
  rewrite take_0. cbn [app Nat.add].
  rewrite take_app_length.
  rewrite (drop_ge (vals ++ _)) by (rewrite length_app, length_drop; lia).
  rewrite app_nil_r. reflexivity.
Qed.

(** X16.  When [unpack_uint] fails on what follows the packed roots of
    fewer than [MAX_] tables, [read] throws [DatabaseCorruptError] for the
    roots. *)
Theorem read_undecodable_root filename oc s u vals bad :
  pack_contract →
  length u = 16 →
  Forall (λ v, 0 ≤ v ≤ NO_ROOT)%Z vals →
  length vals < MAX_ →
  bad ≠ [] →
  (∀ old, fst (fst (unpack_uint bad old)) = false) →
  length (write_header u ++ packed vals ++ bad) ≤ 256 →
  open_r_fault oc = None →
  files (world s) !! filename = Some (write_header u ++ packed vals ++ bad) →
  length (root (obj s)) = MAX_ →
  ∃ s', run (read filename) oc s = (Throw (DatabaseCorruptError "Rev file roots"), s').
Proof.
  intros Hpack Hu Hvals Hk Hne Hbad Hsize Hopen Hfile Hroot.
  rewrite (read_full filename oc s _ Hopen Hfile).
  rewrite decode_header_then by assumption.
  rewrite (decode_roots_prefix Hpack) by first [assumption | lia].
  destruct (MAX_ - length vals) as [|n] eqn:Hn; [lia|].
  cbn [decode_roots]. destruct bad as [|c bad]; [contradiction|].
  match goal with
  | |- context [unpack_uint (c :: bad) ?old] =>
      specialize (Hbad old); destruct (unpack_uint (c :: bad) old) as [[ok p'] r]
  end.
  cbn [fst] in Hbad. rewrite Hbad. eexists. reflexivity.
Qed.

(** X17.  A file rejected for bytes left after the last table has by then
    replaced the UUID and the roots of the object with its own: [read]
    does not restore them. *)
Theorem read_junk_overwrites_object filename oc s contents roots c p :
  open_r_fault oc = None →
  files (world s) !! filename = Some contents →
  32 ≤ length contents →
  take 14 contents = BRASS_VERSION_MAGIC →
  (byte_at contents 14 * 256 + byte_at contents 15)%Z = BRASS_FORMAT_VERSION →
  decode_roots 0 MAX_ (drop 32 (take 256 contents)) (root (obj s)) = (roots, Some (c :: p)) →
  ∃ s',
    run (read filename) oc s
    = (Throw (DatabaseCorruptError "Rev file has junk at end"), s')
    ∧ uuid (obj s') = take 16 (drop 16 contents)
    ∧ root (obj s') = roots.
Proof.
  intros Hopen Hfile Hlen Hmagic Hv Hroots.
  rewrite (read_full filename oc s contents) by assumption.
  rewrite decode_good_magic by assumption. cbv zeta.
  rewrite Hv, Z.eqb_refl, Hroots. cbn [negb fst snd].
  eexists. repeat split.
Qed.

End CodecMore.

(** ** More on the directory scan *)

Section ScanMore.
Context `{BrassEnv}.

(** [open_most_recent] once the directory is open, whatever the listing
    does. *)
Lemma open_most_recent_cases db_dir oc s names :
  opendir_result oc = inr names →
  run (open_most_recent db_dir) oc s
  = let w1 := mkWorld (files (world s)) (errno_after_listing oc)
                (trace (world s) ++ listing_trace db_dir names) in
    if (errno_after_listing oc =? 0)%Z then
      let newest := foldl scan_entry "" names in
      if String.eqb newest "" then
        (Ok (),
         mkState (mkBrassVersion 0 (fill_from 0 MAX_ NO_ROOT (root (obj s)))
                    (new_root (obj s)) (uuid (obj s))) w1)
      else
        run (read (db_dir +:+ "/v" +:+ newest)) oc
          (mkState
             (mkBrassVersion (strtoul16 newest `mod` 2 ^ 32) (root (obj s))
                (new_root (obj s)) (uuid (obj s))) w1)
    else
      (Throw (DatabaseError ("Couldn't read from directory: " +:+ db_dir)
                (errno_after_listing oc)),
       mkState (obj s) w1).
Proof.
  intros Hdir. unfold run, open_most_recent.
  unfold bind at 1. unfold sys_opendir, log. unfold_monad. rewrite Hdir.
  cbn [fst snd obj world files errno trace].
  match goal with
  | |- context [scan_dir db_dir names "" oc ?st] =>
      pose proof (scan_dir_run db_dir names "" oc st) as Hscan
  end.
  unfold run in Hscan. rewrite Hscan. clear Hscan.
  cbn [obj world files errno trace]. cbv zeta.
  unfold listing_trace. rewrite <- !app_assoc.
  destruct (errno_after_listing oc =? 0)%Z; [|reflexivity].
  destruct (String.eqb (foldl scan_entry "" names) ""); reflexivity.
Qed.

Lemma open_most_recent_not_opened db_dir oc s e :
  opendir_result oc = inl e →
  run (open_most_recent db_dir) oc s
  = (Throw (DatabaseOpeningError ("Couldn't open directory: " +:+ db_dir) e),
     mkState (obj s)
       (mkWorld (files (world s)) e (trace (world s) ++ [SysOpendir db_dir]))).
Proof.
  intros Hdir. unfold run, open_most_recent. mstep. rewrite Hdir. reflexivity.
Qed.

(** Two strings of one length that [memcmp] finds equal are equal. *)
Lemma memcmp_Eq_eq a b :
  String.length a = String.length b →
  memcmp a 0 b 0 (String.length a) = Eq → a = b.
Proof.
  revert b. induction a as [|c a IH]; intros [|c' b] Hlen Hcmp; try discriminate.
  - reflexivity.
  - injection Hlen as Hlen. cbn [String.length memcmp] in Hcmp.
    change (c_at (String c a) 0) with c in Hcmp.
    change (c_at (String c' b) 0) with c' in Hcmp.
    destruct (Z.compare_spec (byte_val c) (byte_val c')) as [Hcc|Hcc|Hcc]; try discriminate.
    apply byte_val_inj in Hcc as ->.
    destruct (memcmp_cons a 0 c' (String c' b) 1 (String.length a)) as [Hl _].
    destruct (memcmp_cons a 0 c' b 0 (String.length a)) as [_ Hr].
    rewrite Hl, Hr in Hcmp. f_equal. apply IH; assumption.
Qed.

(** Suffixes of equal value are equal. *)
Lemma hex8_value_inj a b : hex8 a → hex8 b → strtoul16 a = strtoul16 b → a = b.
Proof.
  intros [Hla Hda] [Hlb Hdb] Hval. apply memcmp_Eq_eq; [congruence|].
  rewrite memcmp_numeric by (assumption || congruence).
  apply Z.compare_eq_iff. exact Hval.
Qed.

Lemma newest_of_unique names a b : newest_of names a → newest_of names b → a = b.
Proof.
  intros [[-> Hnone]|(Hhex & (n & Hn & Hacc & Heq) & Hmax)]
         [[-> Hnone']|(Hhex' & (n' & Hn' & Hacc' & Heq') & Hmax')].
  - reflexivity.
  - rewrite (Hnone n' Hn') in Hacc'. discriminate.
  - rewrite (Hnone' n Hn) in Hacc. discriminate.
  - apply hex8_value_inj; try assumption.
    pose proof (Hmax n' Hn' Hacc') as H1. pose proof (Hmax' n Hn Hacc) as H2.
    rewrite Heq' in H1. rewrite Heq in H2. lia.
Qed.

Lemma newest_of_perm names names' a :
  names ≡ₚ names' → newest_of names a → newest_of names' a.
Proof.
  intros Hperm [[-> Hnone]|(Hhex & (n & Hn & Hacc & Heq) & Hmax)].
  - left. split; [reflexivity|]. intros n Hn. apply Hnone. rewrite Hperm. exact Hn.
  - right. split; [assumption|]. split.
    + exists n. rewrite <- Hperm. auto.
    + intros k Hk. apply Hmax. rewrite Hperm. exact Hk.
Qed.

Lemma read_ignores_listing filename oc s names :
  run (read filename) (with_listing oc names) s = run (read filename) oc s.
Proof.
  destruct (open_r_fault oc) as [e|] eqn:Hopen.
  { rewrite !read_not_opened by (left; simpl; congruence). simpl. rewrite Hopen. reflexivity. }
  destruct (files (world s) !! filename) as [contents|] eqn:Hfile.
  - rewrite (read_full filename (with_listing oc names) s contents),
      (read_full filename oc s contents) by assumption.
    reflexivity.
  - rewrite !read_not_opened by (right; assumption). simpl. rewrite Hopen. reflexivity.
Qed.

(** X18.  The order in which the directory returns its entries does not
    matter: on two listings with the same entries, [open_most_recent] ends
    the same way in the same state. *)
Theorem scan_order_irrelevant db_dir oc s names names' :
  names ≡ₚ names' →
  run (open_most_recent db_dir) (with_listing oc names) s
  = run (open_most_recent db_dir) (with_listing oc names') s.
Proof.
  intros Hperm.
  rewrite (open_most_recent_cases db_dir (with_listing oc names) s names) by reflexivity.
  rewrite (open_most_recent_cases db_dir (with_listing oc names') s names') by reflexivity.
  assert (Hnew : foldl scan_entry "" names = foldl scan_entry "" names').
  { apply (newest_of_unique names'); [|apply newest_of_scan].
    apply (newest_of_perm names); [exact Hperm | apply newest_of_scan]. }
  cbv zeta. rewrite Hnew. unfold listing_trace. rewrite (Permutation_length Hperm).
  change (errno_after_listing (with_listing oc names))
    with (errno_after_listing (with_listing oc names')).
  destruct (errno_after_listing (with_listing oc names') =? 0)%Z; [|reflexivity].
  destruct (String.eqb (foldl scan_entry "" names') ""); [reflexivity|].
  rewrite !read_ignores_listing. reflexivity.
Qed.

(** X19.  The test of [errno] comes after [closedir]: when [closedir]
    sets [errno] to a non-zero value, [open_most_recent] throws
    [DatabaseError] with that value without reading any file, whether the
    listing itself had failed or had reached its end. *)
Theorem closedir_errno_reported db_dir oc s names e :
  opendir_result oc = inr names →
  closedir_fault oc = Some e →
  e ≠ 0%Z →
  ∃ s',
    run (open_most_recent db_dir) oc s
    = (Throw (DatabaseError ("Couldn't read from directory: " +:+ db_dir) e), s')
    ∧ trace (world s') = trace (world s) ++ listing_trace db_dir names
    ∧ obj s' = obj s.
Proof.
  intros Hdir Hcd He. rewrite (open_most_recent_cases db_dir oc s names Hdir).
  cbv zeta. unfold errno_after_listing. rewrite Hcd.
  rewrite (proj2 (Z.eqb_neq e 0) He). eexists. repeat split.
Qed.

(** X20.  The revision is assigned before the file is read: when the
    chosen file cannot be opened, [open_most_recent] throws
    [DatabaseOpeningError] and the current revision is already that of the
    chosen name, while the roots and the UUID are unchanged. *)
Theorem revision_assigned_before_read db_dir oc s names e :
  opendir_result oc = inr names →
  readdir_fault oc = None →
  closedir_fault oc = None →
  open_r_fault oc = Some e →
  (∃ n, n ∈ names ∧ is_revision_name n = true) →
  ∃ newest s',
    String.length newest = 8 ∧ all_lcxdigit newest = true
    ∧ run (open_most_recent db_dir) oc s
      = (Throw (DatabaseOpeningError
                  ((db_dir +:+ "/v" +:+ newest)
                     +:+ ": Failed to open brass revision file for reading") e), s')
    ∧ rev (obj s') = strtoul16 newest
    ∧ root (obj s') = root (obj s)
    ∧ uuid (obj s') = uuid (obj s).
Proof.
  intros Hdir Hrd Hcd Hopen (m & Hm & Hacc).
  rewrite (open_most_recent_cases db_dir oc s names Hdir). cbv zeta.
  unfold errno_after_listing. rewrite Hcd, Hrd. cbn [from_option id Z.eqb].
  destruct (newest_of_scan names) as [[_ Hnone]|(Hhex & _ & _)].
  { rewrite (Hnone m Hm) in Hacc. discriminate. }
  rewrite (hex8_nonempty _ Hhex).
  rewrite read_not_opened by (left; congruence). rewrite Hopen. cbn [from_option id].
  rewrite Z.mod_small by (apply hex8_value_bound; exact Hhex).
  destruct Hhex as [Hlen Hd].
  eexists _, _. split; [exact Hlen|]. split; [exact Hd|]. split; [reflexivity|].
  repeat split.
Qed.

(** X21.  [open_most_recent] never changes a file or the staged roots,
    however it ends. *)
Theorem open_most_recent_is_read_only db_dir oc s :
  files (world (snd (run (open_most_recent db_dir) oc s))) = files (world s)
  ∧ new_root (obj (snd (run (open_most_recent db_dir) oc s))) = new_root (obj s).
Proof.
  destruct (opendir_result oc) as [e|names] eqn:Hdir.
  { rewrite (open_most_recent_not_opened db_dir oc s e Hdir). split; reflexivity. }
  rewrite (open_most_recent_cases db_dir oc s names Hdir). cbv zeta.
  destruct (errno_after_listing oc =? 0)%Z; [|split; reflexivity].
  destruct (String.eqb (foldl scan_entry "" names) ""); [split; reflexivity|].
  match goal with
  | |- context [run (read ?f) oc ?st] =>
      destruct (read_keeps f oc st) as (Hf & _ & Hn)
  end.
  rewrite Hf, Hn. split; reflexivity.
Qed.

End ScanMore.

(** ** Writing, then reading *)

Section Composition.
Context `{BrassEnv}.

Lemma written_suffix r : substring 0 8 (sprintf_08x r) = sprintf_08x r.
Proof.
  destruct (sprintf_08x_hex8 r) as [Hlen _].
  pose proof (substring_full (sprintf_08x r)) as Hsub. rewrite Hlen in Hsub. exact Hsub.
Qed.

(** The scan chooses the name of revision [r] when that name is listed
    and no listed revision is above [r]. *)
Lemma scan_picks_written names r :
  (0 ≤ r < 2 ^ 32)%Z →
  String "v" (sprintf_08x r) ∈ names →
  (∀ n, n ∈ names → is_revision_name n = true →
        (strtoul16 (substring 1 8 n) ≤ r)%Z) →
  foldl scan_entry "" names = sprintf_08x r.
Proof.
  intros Hr Hin Hbound.
  assert (Hwacc : is_revision_name (String "v" (sprintf_08x r)) = true).
  { rewrite <- (written_suffix r). apply written_name_is_revision_name. }
  assert (Hwsuf : substring 1 8 (String "v" (sprintf_08x r)) = sprintf_08x r).
  { change (substring 1 8 (String "v" ?d)) with (substring 0 8 d). apply written_suffix. }
  destruct (newest_of_scan names) as [[_ Hnone]|(Hhex & (k & Hk & Hkacc & Hkeq) & Hmax)].
  { rewrite (Hnone _ Hin) in Hwacc. discriminate. }
  apply hex8_value_inj; [exact Hhex | apply sprintf_08x_hex8 |].
  pose proof (Hmax _ Hin Hwacc) as Hge. rewrite Hwsuf in Hge.
  pose proof (Hbound k Hk Hkacc) as Hle. rewrite Hkeq in Hle.
  rewrite strtoul16_sprintf_08x, Z.mod_small in * by lia. lia.
Qed.

(** X22.  What [create] publishes, [read] accepts: it gives the generated
    UUID and [NO_ROOT] for every table. *)
Theorem create_then_read db_dir oc oc2 s (o2 : BrassVersion) :
  open_w_fault oc = None → write_fault oc = None → sync_fault oc = None →
  close_fault oc = None → rename_fault oc = None →
  length (uuid_generated oc) = 16 →
  length (new_root (obj s)) = MAX_ →
  open_r_fault oc2 = None →
  length (root o2) = MAX_ →
  ∃ s1 s2,
    run (create db_dir) oc s = (Ok (), s1)
    ∧ run (read (db_dir +:+ "/v" +:+ substring 0 8 (sprintf_08x (rev (obj s))))) oc2
        (mkState o2 (world s1))
      = (Ok (), s2)
    ∧ uuid (obj s2) = uuid_generated oc
    ∧ root (obj s2) = replicate MAX_ NO_ROOT.
Proof.
  intros Ho Hw Hs Hc Hr Hu Hlen Hopen Hroot.
  rewrite create_unfold, fill_from_all by assumption.
  rewrite write_success by first [reflexivity | repeat split; assumption].
  eexists _, _. split; [reflexivity|].
  cbn [obj world files rev uuid new_root].
  rewrite write_buffer_all_no_root by reflexivity. cbn [uuid].
  rewrite (read_full _ oc2 _ (write_header (uuid_generated oc)) Hopen)
    by (cbn [world files]; apply lookup_insert_eq).
  rewrite <- (app_nil_r (write_header (uuid_generated oc))).
  rewrite decode_header_then by (rewrite ?app_nil_r, ?write_header_length; lia).
  rewrite decode_roots_exhausted by (cbn [obj]; lia).
  cbn [fst snd obj root uuid]. split; [reflexivity|]. split; [reflexivity|].
  rewrite take_0, (drop_ge (root o2)) by lia. rewrite app_nil_r. reflexivity.
Qed.

(** The roots below [table_last] followed by [NO_ROOT] are the staged
    roots. *)
Lemma trimmed_roots_restored (l : list Z) :
  length l = MAX_ →
  take (trim_table_last MAX_ l) l ++ replicate (MAX_ - trim_table_last MAX_ l) NO_ROOT = l.
Proof.
  intros Hlen.
  destruct (trim_table_last_spec MAX_ l) as (Htl & Htail & _).
  set (tl := trim_table_last MAX_ l) in *.
  apply list_eq_same_length with MAX_;
    [exact Hlen | rewrite length_app, length_take, length_replicate; lia |].
  intros i x y Hi Hx Hy.
  destruct (Nat.lt_ge_cases i tl) as [Hlt|Hge].
  - rewrite lookup_app_l, lookup_take_lt in Hx by (rewrite ?length_take; lia). congruence.
  - rewrite lookup_app_r, length_take, Nat.min_l in Hx by (rewrite ?length_take; lia).
    apply lookup_replicate in Hx as [-> _].
    rewrite <- (Htail i ltac:(lia)). apply list_lookup_total_correct. exact Hy.
Qed.

(** [read] on a file that holds what [write] builds from [w]. *)
Lemma read_written (Hpack : pack_contract) filename oc2 st (w : BrassVersion) :
  length (uuid w) = 16 →
  length (new_root w) = MAX_ →
  Forall (λ r, 0 ≤ r ≤ NO_ROOT)%Z (new_root w) →
  length (write_buffer w) ≤ 256 →
  open_r_fault oc2 = None →
  files (world st) !! filename = Some (write_buffer w) →
  length (root (obj st)) = MAX_ →
  ∃ s2,
    run (read filename) oc2 st = (Ok (), s2)
    ∧ rev (obj s2) = rev (obj st)
    ∧ uuid (obj s2) = uuid w
    ∧ root (obj s2) = new_root w.
Proof.
  intros Hu Hlen Hrange Hsize Hopen Hfile Hroot.
  rewrite (read_full filename oc2 st _ Hopen Hfile).
  rewrite (decode_write_buffer Hpack) by assumption.
  eexists. split; [reflexivity|]. cbn [fst snd obj rev root uuid].
  split; [reflexivity|]. split; [reflexivity|].
  apply trimmed_roots_restored. exact Hlen.
Qed.

(** X23.  What [write] publishes, [read] accepts: it gives the UUID of
    the writer and the roots that were staged. *)
Theorem write_then_read db_dir new_rev oc oc2 s (o2 : BrassVersion) :
  pack_contract →
  (rev (obj s) ≤ new_rev)%Z →
  open_w_fault oc = None → write_fault oc = None → sync_fault oc = None →
  close_fault oc = None → rename_fault oc = None →
  length (uuid (obj s)) = 16 →
  length (new_root (obj s)) = MAX_ →
  Forall (λ r, 0 ≤ r ≤ NO_ROOT)%Z (new_root (obj s)) →
  length (write_buffer (obj s)) ≤ 256 →
  open_r_fault oc2 = None →
  length (root o2) = MAX_ →
  ∃ s1 s2,
    run (write db_dir new_rev) oc s = (Ok (), s1)
    ∧ run (read (db_dir +:+ "/v" +:+ substring 0 8 (sprintf_08x new_rev))) oc2
        (mkState o2 (world s1))
      = (Ok (), s2)
    ∧ uuid (obj s2) = uuid (obj s)
    ∧ root (obj s2) = new_root (obj s).
Proof.
  intros Hpack Hle Ho Hw Hs Hc Hr Hu Hlen Hrange Hsize Hopen Hroot.
  rewrite write_success by first [assumption | repeat split; assumption].
  match goal with |- ∃ s1 s2, (Ok (), ?st) = (Ok (), s1) ∧ _ => exists st end.
  match goal with
  | |- context [run (read ?f) oc2 ?st] =>
      destruct (read_written Hpack f oc2 st (obj s)) as (s2 & Hread & _ & Hu2 & Hr2);
        try assumption; [cbn [world files]; apply lookup_insert_eq|]
  end.
  exists s2. split; [reflexivity|]. split; [exact Hread|]. split; assumption.
Qed.

(** X24.  After a successful [write] of revision [new_rev],
    [open_most_recent] on a listing that holds the new name and no
    revision above it gives the object the new revision, the UUID of the
    writer and the staged roots. *)
Theorem write_then_open_most_recent db_dir new_rev oc oc2 s (o2 : BrassVersion) names :
  pack_contract →
  (rev (obj s) ≤ new_rev)%Z → (0 ≤ new_rev < 2 ^ 32)%Z →
  open_w_fault oc = None → write_fault oc = None → sync_fault oc = None →
  close_fault oc = None → rename_fault oc = None →
  length (uuid (obj s)) = 16 →
  length (new_root (obj s)) = MAX_ →
  Forall (λ r, 0 ≤ r ≤ NO_ROOT)%Z (new_root (obj s)) →
  length (write_buffer (obj s)) ≤ 256 →
  opendir_result oc2 = inr names → readdir_fault oc2 = None → closedir_fault oc2 = None →
  open_r_fault oc2 = None →
  String "v" (sprintf_08x new_rev) ∈ names →
  (∀ n, n ∈ names → is_revision_name n = true →
        (strtoul16 (substring 1 8 n) ≤ new_rev)%Z) →
  length (root o2) = MAX_ →
  ∃ s1 s2,
    run (write db_dir new_rev) oc s = (Ok (), s1)
    ∧ run (open_most_recent db_dir) oc2 (mkState o2 (world s1)) = (Ok (), s2)
    ∧ rev (obj s2) = new_rev
    ∧ uuid (obj s2) = uuid (obj s)
    ∧ root (obj s2) = new_root (obj s).
Proof.
  intros Hpack Hle Hrange32 Ho Hw Hs Hc Hr Hu Hlen Hrange Hsize Hdir Hrd Hcd Hopen
         Hin Hbound Hroot.
  rewrite write_success by first [assumption | repeat split; assumption].
  match goal with |- ∃ s1 s2, (Ok (), ?st) = (Ok (), s1) ∧ _ => exists st end.
  rewrite (open_most_recent_cases db_dir oc2 _ names Hdir). cbv zeta.
  unfold errno_after_listing. rewrite Hcd, Hrd. cbn [from_option id Z.eqb].
  rewrite (scan_picks_written names new_rev) by assumption.
  rewrite (hex8_nonempty _ (sprintf_08x_hex8 new_rev)).
  rewrite strtoul16_sprintf_08x, Z.mod_mod, Z.mod_small by lia.
  match goal with
  | |- context [run (read ?f) oc2 ?st] =>
      destruct (read_written Hpack f oc2 st (obj s)) as (s2 & Hread & Hrev2 & Hu2 & Hr2);
        try assumption;
        [cbn [obj world files]; unfold filename_of; rewrite written_suffix;
         apply lookup_insert_eq|]
  end.
  exists s2. split; [reflexivity|]. split; [exact Hread|]. split; [exact Hrev2|].
  split; assumption.
Qed.

(** X25.  [create] installs the generated UUID and resets the staged
    roots before it writes, so they are in place also when the write
    fails; its write is never rejected for the revision, so what it
    throws is an opening error or the exception of the data write, and the
    current revision and the committed roots are then unchanged. *)
Theorem create_installs_before_write db_dir oc s :
  length (new_root (obj s)) = MAX_ →
  uuid (obj (snd (run (create db_dir) oc s))) = uuid_generated oc
  ∧ new_root (obj (snd (run (create db_dir) oc s))) = replicate MAX_ NO_ROOT
  ∧ rev (obj (snd (run (create db_dir) oc s))) = rev (obj s)
  ∧ ∀ e, fst (run (create db_dir) oc s) = Throw e →
         root (obj (snd (run (create db_dir) oc s))) = root (obj s)
         ∧ (is_opening_error e = true ∨ ∃ n, write_fault oc = Some (n, e)).
Proof.
  intros Hlen. rewrite create_unfold, fill_from_all by assumption.
  match goal with
  | |- context [run (write db_dir ?r) oc ?st] =>
      pose proof (write_throw_keeps_obj db_dir r oc st) as Hobj;
      set (st0 := st) in *
  end.
  assert (Hkind : ∀ e, fst (run (write db_dir (rev (obj s))) oc st0) = Throw e →
                       is_opening_error e = true ∨ ∃ n, write_fault oc = Some (n, e)).
  { intros e. unfold write. mstep. rewrite Z.ltb_irrefl.
    repeat first
      [ rewrite lookup_insert_eq; simpl
      | case_outcome ];
      simpl; intros Heq; try discriminate Heq; injection Heq as <-;
      first [left; reflexivity | right; eexists; reflexivity]. }
  destruct (run (write db_dir (rev (obj s))) oc st0) as [[[]|e] s'] eqn:Hrun;
    cbn [fst snd] in *; rewrite Hobj; cbn [obj committed uuid new_root rev root].
  - split; [reflexivity|]. split; [reflexivity|]. split; [reflexivity|].
    intros e He. discriminate He.
  - split; [reflexivity|]. split; [reflexivity|]. split; [reflexivity|].
    intros e' He. split; [reflexivity|]. apply Hkind. exact He.
Qed.

End Composition.

(** ** Runs of the instance, continued *)

(** The date of the format, 2010-02-23, and version 53. *)
Lemma date_version_roundtrip_witness :
  VERSION_TO_YEAR (DATE_TO_VERSION 2010 2 23) = 2010%Z
  ∧ VERSION_TO_MONTH (DATE_TO_VERSION 2010 2 23) = 2%Z
  ∧ VERSION_TO_DAY (DATE_TO_VERSION 2010 2 23) = 23%Z
  ∧ DATE_TO_VERSION (VERSION_TO_YEAR 53) (VERSION_TO_MONTH 53) (VERSION_TO_DAY 53) = 53%Z.
Proof. apply (date_version_roundtrip 2010 2 23 53); lia. Defined.

(** 2010-02-23 against 2186-03-02. *)
Lemma date_version_monotone_witness :
  ((DATE_TO_VERSION 2010 2 23 < DATE_TO_VERSION 2186 3 2)%Z
   ↔ (2010 < 2186 ∨ (2010 = 2186 ∧ (2 < 3 ∨ (2 = 3 ∧ 23 < 2))))%Z)
  ∧ ((0 ≤ DATE_TO_VERSION 2010 2 23 ≤ 65535)%Z
     ↔ (2010 ≤ 2010 ∧ (2010 < 2186 ∨ (2010 = 2186 ∧ (2 < 3 ∨ (2 = 3 ∧ 23 ≤ 2)))))%Z).
Proof. apply (date_version_monotone 2010 2 23 2186 3 2); lia. Defined.

(** Revision 10. *)
Lemma revision_name_roundtrip_witness :
  is_revision_name "v0000000a" = true
  ∧ (strtoul16 (substring 1 8 "v0000000a") `mod` 2 ^ 32)%Z = 10%Z.
Proof. apply (revision_name_roundtrip 10). lia. Defined.

(** Revisions 1 and 10. *)
Lemma revision_name_order_witness :
  memcmp "00000001" 0 "v0000000a" 1 8 = Lt.
Proof. apply (revision_name_order 1 10); lia. Defined.

(** Revision 1 beside an older revision file. *)
Lemma write_publishes_witness :
  ∃ s',
    run (@write Varint.env "db" 1) no_faults
      (mkState staged_obj (world_with_file "db/v00000000" junk_file))
    = (Ok (), s')
    ∧ files (world s') !! "db/v00000001" = Some (@write_buffer Varint.env staged_obj)
    ∧ files (world s') !! "dbv.tmp" = None
    ∧ ∀ p, p ≠ "dbv.tmp" → p ≠ "db/v00000001" →
           files (world s') !! p
           = files (world_with_file "db/v00000000" junk_file) !! p.
Proof.
  apply (@write_publishes Varint.env "db" 1 no_faults
           (mkState staged_obj (world_with_file "db/v00000000" junk_file)));
    first [reflexivity | simpl; lia].
Defined.

(** The data write fails while a revision file of that name exists. *)
Lemma write_failure_touches_only_tmpfile_witness :
  files (world (snd (run (@write Varint.env "db" 1) write_fails
                       (mkState staged_obj (world_with_file "db/v00000001" junk_file)))))
    !! "db/v00000000"
  = files (world_with_file "db/v00000001" junk_file) !! "db/v00000000"
  ∧ files (world (snd (run (@write Varint.env "db" 1) write_fails
                         (mkState staged_obj (world_with_file "db/v00000001" junk_file)))))
      !! "db/v00000001"
    = files (world_with_file "db/v00000001" junk_file) !! "db/v00000001".
Proof.
  apply (@write_failure_touches_only_tmpfile Varint.env "db" 1 write_fails
           (mkState staged_obj (world_with_file "db/v00000001" junk_file))
           (DatabaseError "Error writing to file" 28)).
  - vm_compute. reflexivity.
  - discriminate.
Defined.

(** The sync fails with [errno] 5 and the close after it with 9; the
    close fails; the rename fails. *)
Lemma write_reports_failing_step_witness :
  (∃ s',
     run (@write Varint.env "db" 1) sync_fails (mkState staged_obj empty_world)
     = (Throw (DatabaseOpeningError "Failed to sync new rev file: dbv.tmp" 5), s')
     ∧ last (trace (world s')) = Some (SysUnlink "dbv.tmp"))
  ∧ (∃ s',
       run (@write Varint.env "db" 1) close_fails (mkState staged_obj empty_world)
       = (Throw (DatabaseOpeningError "Failed to close new rev file: dbv.tmp" 9), s')
       ∧ last (trace (world s')) = Some (SysUnlink "dbv.tmp"))
  ∧ (∃ s',
       run (@write Varint.env "db" 1) rename_fails (mkState staged_obj empty_world)
       = (Throw (DatabaseOpeningError "Failed to rename new rev file: dbv.tmp" 18), s')
       ∧ last (trace (world s')) = Some (SysUnlink "dbv.tmp")).
Proof.
  split; [|split].
  - apply (proj1 (@write_reports_failing_step Varint.env "db" 1 sync_fails
                    (mkState staged_obj empty_world) ltac:(simpl; lia) eq_refl eq_refl) 5%Z).
    reflexivity.
  - apply (proj1 (proj2 (@write_reports_failing_step Varint.env "db" 1 close_fails
                    (mkState staged_obj empty_world) ltac:(simpl; lia) eq_refl eq_refl)) 9%Z);
      reflexivity.
  - apply (proj2 (proj2 (@write_reports_failing_step Varint.env "db" 1 rename_fails
                    (mkState staged_obj empty_world) ltac:(simpl; lia) eq_refl eq_refl)) 18%Z);
      reflexivity.
Defined.

(** The open of the temporary file fails with [errno] 13. *)
Lemma write_open_failure_witness :
  ∃ s',
    run (@write Varint.env "db" 1) open_w_fails (mkState staged_obj empty_world)
    = (Throw (DatabaseOpeningError "Couldn't write new rev file: dbv.tmp" 13), s')
    ∧ trace (world s') = [] ++ [SysOpenW "dbv.tmp"]
    ∧ files (world s') = ∅
    ∧ obj s' = staged_obj.
Proof.
  apply (@write_open_failure Varint.env "db" 1 open_w_fails
           (mkState staged_obj empty_world) 13%Z).
  - simpl. lia.
  - reflexivity.
Defined.

(** Revision 5, then revision 4. *)
Lemma write_then_lower_rejected_witness :
  ∃ s1 e,
    run (@write Varint.env "db" 5) no_faults (mkState staged_obj empty_world) = (Ok (), s1)
    ∧ run (@write Varint.env "db" 4) no_faults s1 = (Throw e, s1)
    ∧ is_generic_error e = true
    ∧ files (world s1) !! "db/v00000005" = Some (@write_buffer Varint.env staged_obj).
Proof.
  apply (@write_then_lower_rejected Varint.env "db" 5 4 no_faults no_faults
           (mkState staged_obj empty_world));
    first [reflexivity | simpl; lia].
Defined.

(** No such file. *)
Lemma read_open_failure_witness :
  ∃ e s',
    run (@read Varint.env "db/v00000001") no_faults (mkState fresh_obj empty_world)
    = (Throw (DatabaseOpeningError
                "db/v00000001: Failed to open brass revision file for reading" e), s')
    ∧ (∀ e', open_r_fault no_faults = Some e' → e = e')
    ∧ trace (world s') = [] ++ [SysOpenR "db/v00000001"]
    ∧ files (world s') = ∅
    ∧ obj s' = fresh_obj.
Proof.
  apply (@read_open_failure Varint.env "db/v00000001" no_faults
           (mkState fresh_obj empty_world)).
  right. reflexivity.
Defined.

(** A file of a later format: the version error leaves [read], and the
    descriptor is closed. *)
Lemma read_closes_descriptor_witness :
  trace (world (snd (run (@read Varint.env "db/v00000001") no_faults
                       (mkState fresh_obj
                          (world_with_file "db/v00000001" later_format_file)))))
  = [] ++ [SysOpenR "db/v00000001"; SysRead "db/v00000001"; SysClose "db/v00000001"].
Proof.
  apply (@read_closes_descriptor Varint.env "db/v00000001" no_faults
           (mkState fresh_obj (world_with_file "db/v00000001" later_format_file))
           later_format_file).
  - reflexivity.
  - vm_compute. reflexivity.
Defined.

(** A file of 20 bytes. *)
Lemma read_header_rejection_keeps_object_witness :
  ∃ e s',
    run (@read Varint.env "db/v00000001") no_faults
      (mkState staged_obj (world_with_file "db/v00000001" short_file))
    = (Throw e, s')
    ∧ obj s' = staged_obj.
Proof.
  apply (@read_header_rejection_keeps_object Varint.env "db/v00000001" no_faults
           (mkState staged_obj (world_with_file "db/v00000001" short_file)) short_file).
  - reflexivity.
  - vm_compute. reflexivity.
  - left. vm_compute. lia.
Defined.

(** The roots of tables 0 and 1 only, the second being [NO_ROOT]. *)
Lemma read_short_root_list_witness :
  ∃ s',
    run (@read Varint.env "db/v00000001") no_faults
      (mkState fresh_obj (world_with_file "db/v00000001" two_roots_file))
    = (Ok (), s')
    ∧ uuid (obj s') = sample_uuid
    ∧ root (obj s') = [7; 4294967295]%Z ++ replicate (6 - 2) 4294967295%Z.
Proof.
  apply (@read_short_root_list Varint.env "db/v00000001" no_faults
           (mkState fresh_obj (world_with_file "db/v00000001" two_roots_file))
           sample_uuid [7; 4294967295]%Z).
  - exact varint_contract.
  - reflexivity.
  - repeat constructor; discriminate.
  - simpl. lia.
  - vm_compute. lia.
  - reflexivity.
  - vm_compute. reflexivity.
  - reflexivity.
Defined.

(** The root of table 1 is a lone continuation byte. *)
Lemma read_undecodable_root_witness :
  ∃ s',
    run (@read Varint.env "db/v00000001") no_faults
      (mkState fresh_obj (world_with_file "db/v00000001" cut_root_file))
    = (Throw (DatabaseCorruptError "Rev file roots"), s').
Proof.
  apply (@read_undecodable_root Varint.env "db/v00000001" no_faults
           (mkState fresh_obj (world_with_file "db/v00000001" cut_root_file))
           sample_uuid [7]%Z [to_char 200]).
  - exact varint_contract.
  - reflexivity.
  - repeat constructor; discriminate.
  - simpl. lia.
  - discriminate.
  - intros old. reflexivity.
  - vm_compute. lia.
  - reflexivity.
  - vm_compute. reflexivity.
  - reflexivity.
Defined.

(** A byte after the roots of all six tables. *)
Lemma read_junk_overwrites_object_witness :
  ∃ s',
    run (@read Varint.env "db/v00000001") no_faults
      (mkState fresh_obj (world_with_file "db/v00000001" junk_file))
    = (Throw (DatabaseCorruptError "Rev file has junk at end"), s')
    ∧ uuid (obj s') = take 16 (drop 16 junk_file)
    ∧ root (obj s') = [1; 2; 3; 4; 5; 6]%Z.
Proof.
  apply (@read_junk_overwrites_object Varint.env "db/v00000001" no_faults
           (mkState fresh_obj (world_with_file "db/v00000001" junk_file))
           junk_file [1; 2; 3; 4; 5; 6]%Z (to_char 7) []).
  - reflexivity.
  - vm_compute. reflexivity.
  - vm_compute. lia.
  - reflexivity.
  - reflexivity.
  - vm_compute. reflexivity.
Defined.

(** The listing of the scanner example, forwards and backwards. *)
Lemma scan_order_irrelevant_witness :
  run (@open_most_recent Varint.env "db") (with_listing no_faults sample_names)
    (mkState fresh_obj (world_with_file "db/v0000000a" two_roots_file))
  = run (@open_most_recent Varint.env "db") (with_listing no_faults (reverse sample_names))
      (mkState fresh_obj (world_with_file "db/v0000000a" two_roots_file)).
Proof.
  apply (@scan_order_irrelevant Varint.env "db" no_faults
           (mkState fresh_obj (world_with_file "db/v0000000a" two_roots_file))
           sample_names (reverse sample_names)).
  symmetry. apply reverse_Permutation.
Defined.

(** The listing reaches its end and [closedir] sets [errno] to 9. *)
Lemma closedir_errno_reported_witness :
  ∃ s',
    run (@open_most_recent Varint.env "db") closedir_fails (mkState fresh_obj empty_world)
    = (Throw (DatabaseError "Couldn't read from directory: db" 9), s')
    ∧ trace (world s') = [] ++ listing_trace "db" sample_names
    ∧ obj s' = fresh_obj.
Proof.
  apply (@closedir_errno_reported Varint.env "db" closedir_fails
           (mkState fresh_obj empty_world) sample_names 9%Z).
  - reflexivity.
  - reflexivity.
  - discriminate.
Defined.

(** The chosen revision file cannot be opened. *)
Lemma revision_assigned_before_read_witness :
  ∃ newest s',
    String.length newest = 8 ∧ all_lcxdigit newest = true
    ∧ run (@open_most_recent Varint.env "db") open_r_fails (mkState fresh_obj empty_world)
      = (Throw (DatabaseOpeningError
                  (("db" +:+ "/v" +:+ newest)
                     +:+ ": Failed to open brass revision file for reading") 13), s')
    ∧ rev (obj s') = strtoul16 newest
    ∧ root (obj s') = root fresh_obj
    ∧ uuid (obj s') = uuid fresh_obj.
Proof.
  apply (@revision_assigned_before_read Varint.env "db" open_r_fails
           (mkState fresh_obj empty_world) sample_names 13%Z).
  - reflexivity.
  - reflexivity.
  - reflexivity.
  - reflexivity.
  - exists "v00000001". split; [left | reflexivity].
Defined.

(** [create] in an empty directory, then [read] by a new object. *)
Lemma create_then_read_witness :
  ∃ s1 s2,
    run (@create Varint.env "db") no_faults (mkState fresh_obj empty_world) = (Ok (), s1)
    ∧ run (@read Varint.env ("db" +:+ "/v" +:+ substring 0 8 (sprintf_08x 0))) no_faults
        (mkState fresh_obj (world s1))
      = (Ok (), s2)
    ∧ uuid (obj s2) = sample_uuid
    ∧ root (obj s2) = replicate 6 4294967295%Z.
Proof.
  apply (@create_then_read Varint.env "db" no_faults no_faults
           (mkState fresh_obj empty_world) fresh_obj); reflexivity.
Defined.

(** Revision 10 with the root of table 2 at 42, then [read] by a new
    object. *)
Lemma write_then_read_witness :
  ∃ s1 s2,
    run (@write Varint.env "db" 10) no_faults (mkState staged_obj empty_world) = (Ok (), s1)
    ∧ run (@read Varint.env ("db" +:+ "/v" +:+ substring 0 8 (sprintf_08x 10))) no_faults
        (mkState fresh_obj (world s1))
      = (Ok (), s2)
    ∧ uuid (obj s2) = sample_uuid
    ∧ root (obj s2) = [4294967295; 4294967295; 42; 4294967295; 4294967295; 4294967295]%Z.
Proof.
  apply (@write_then_read Varint.env "db" 10 no_faults no_faults
           (mkState staged_obj empty_world) fresh_obj).
  - exact varint_contract.
  - simpl. lia.
  - reflexivity.
  - reflexivity.
  - reflexivity.
  - reflexivity.
  - reflexivity.
  - reflexivity.
  - reflexivity.
  - repeat constructor; discriminate.
  - vm_compute. lia.
  - reflexivity.
  - reflexivity.
Defined.

(** Revision 10, then [open_most_recent] on the listing of the scanner
    example. *)
Lemma write_then_open_most_recent_witness :
  ∃ s1 s2,
    run (@write Varint.env "db" 10) no_faults (mkState staged_obj empty_world) = (Ok (), s1)
    ∧ run (@open_most_recent Varint.env "db") (listing_of sample_names)
        (mkState fresh_obj (world s1))
      = (Ok (), s2)
    ∧ rev (obj s2) = 10%Z
    ∧ uuid (obj s2) = sample_uuid
    ∧ root (obj s2) = [4294967295; 4294967295; 42; 4294967295; 4294967295; 4294967295]%Z.
Proof.
  apply (@write_then_open_most_recent Varint.env "db" 10 no_faults
           (listing_of sample_names) (mkState staged_obj empty_world) fresh_obj sample_names).
  - exact varint_contract.
  - simpl. lia.
  - lia.
  - reflexivity.
  - reflexivity.
  - reflexivity.
  - reflexivity.
  - reflexivity.
  - reflexivity.
  - reflexivity.
  - repeat constructor; discriminate.
  - vm_compute. lia.
  - reflexivity.
  - reflexivity.
  - reflexivity.
  - reflexivity.
  - right. left.
  - intros n Hn Hacc. unfold sample_names in Hn.
    repeat (apply elem_of_cons in Hn as [->|Hn];
            [first [discriminate Hacc | vm_compute; discriminate]|]).
    inversion Hn.
  - reflexivity.
Defined.

(** The data write fails inside [create]. *)
Lemma create_installs_before_write_witness :
  uuid (obj (snd (run (@create Varint.env "db") write_fails
                    (mkState fresh_obj empty_world)))) = sample_uuid
  ∧ new_root (obj (snd (run (@create Varint.env "db") write_fails
                          (mkState fresh_obj empty_world)))) = replicate 6 4294967295%Z
  ∧ rev (obj (snd (run (@create Varint.env "db") write_fails
                     (mkState fresh_obj empty_world)))) = 0%Z
  ∧ ∀ e, fst (run (@create Varint.env "db") write_fails (mkState fresh_obj empty_world))
         = Throw e →
         root (obj (snd (run (@create Varint.env "db") write_fails
                           (mkState fresh_obj empty_world)))) = root fresh_obj
         ∧ (is_opening_error e = true ∨ ∃ n, write_fault write_fails = Some (n, e)).
Proof.
  apply (@create_installs_before_write Varint.env "db" write_fails
           (mkState fresh_obj empty_world)).
  reflexivity.
Defined.
